(** * file_processor: matching flat references against section drawings

    A shallow embedding of [src/file_processor.py] (class [FileProcessor]):
    the reference extractor [get_flat_references], the matcher
    [find_matching_sections], the file naming [generate_new_filename], the
    copy step [copy_file] and the driver [process_files].

    Conventions of the embedding.
    - A Python [str] is a [string]; a character is a code point below 256.
    - A spreadsheet cell is [option string]: [None] is a missing cell (NaN).
      Cells holding numbers or dates are not modelled.
    - [pandas.Series.str.contains(pat, case=False, na=False)] keeps its
      default [regex=True]: the pattern is compiled by [re] with
      [re.IGNORECASE] and searched in every cell.  The regular expressions
      modelled are literals, [.], groups, [|] and the quantifiers [* + ?];
      any other construct makes the model answer [Beyond].
    - The file system, [pathlib] joining and [shutil.copy2] are parameters
      of the development; every call made to them is logged. *)

From Stdlib Require Import String Ascii List Bool Arith Lia.
Import ListNotations.
Open Scope string_scope.
Open Scope bool_scope.
Open Scope nat_scope.

(** ** Characters and strings, as Python's [str] methods see them *)

Module Py.

(** [str.isspace] on one code point below 256. *)
Definition isspace (c : ascii) : bool :=
  let n := nat_of_ascii c in
  ((9 <=? n) && (n <=? 13)) || ((28 <=? n) && (n <=? 32))
  || (n =? 133) || (n =? 160).

(** Lower-casing of one code point below 256 ([str.lower], and the folding
    [re.IGNORECASE] applies to both the pattern and the subject). *)
Definition tolower (c : ascii) : ascii :=
  let n := nat_of_ascii c in
  if ((65 <=? n) && (n <=? 90))
     || ((192 <=? n) && (n <=? 222) && negb (n =? 215))
  then ascii_of_nat (n + 32) else c.

Fixpoint lower (s : string) : string :=
  match s with
  | EmptyString => EmptyString
  | String c s' => String (tolower c) (lower s')
  end.

Fixpoint lstrip (s : string) : string :=
  match s with
  | EmptyString => EmptyString
  | String c s' => if isspace c then lstrip s' else s
  end.

Fixpoint rstrip (s : string) : string :=
  match s with
  | EmptyString => EmptyString
  | String c s' =>
      match rstrip s' with
      | EmptyString => if isspace c then EmptyString else String c EmptyString
      | r => String c r
      end
  end.

(** [s.strip()] *)
Definition strip (s : string) : string := rstrip (lstrip s).

(** [s.startswith(p)] *)
Definition startswith (p s : string) : bool := String.prefix p s.

(** [s.endswith(suf)] *)
Fixpoint endswith (suf s : string) : bool :=
  String.eqb s suf
  || match s with
     | EmptyString => false
     | String _ s' => endswith suf s'
     end.

(** [p in s], plain substring containment. *)
Fixpoint contains (p s : string) : bool :=
  String.prefix p s
  || match s with
     | EmptyString => false
     | String _ s' => contains p s'
     end.

(** [s.replace(" ", "")] *)
Fixpoint remove_spaces (s : string) : string :=
  match s with
  | EmptyString => EmptyString
  | String c s' =>
      if Ascii.eqb c " " then remove_spaces s' else String c (remove_spaces s')
  end.

(** ["." in s] *)
Fixpoint has_dot (s : string) : bool :=
  match s with
  | EmptyString => false
  | String c s' => Ascii.eqb c "." || has_dot s'
  end.

(** [s.rsplit(".", 1)] when [s] holds a dot: the text before the last dot and
    the text after it; [None] when [s] holds no dot. *)
Fixpoint rsplit_dot (s : string) : option (string * string) :=
  match s with
  | EmptyString => None
  | String c s' =>
      match rsplit_dot s' with
      | Some (a, b) => Some (String c a, b)
      | None => if Ascii.eqb c "." then Some (EmptyString, s') else None
      end
  end.

End Py.

(** ** The pattern engine behind [str.contains]: [re] with [re.IGNORECASE] *)

Module Re.

Inductive regex : Type :=
| Empty                       (* matches nothing *)
| Eps                         (* matches the empty string *)
| Chr (c : ascii)             (* one literal character *)
| AnyButNewline               (* [.] without [re.DOTALL] *)
| Seq (r1 r2 : regex)
| Alt (r1 r2 : regex)
| Star (r : regex).

(** What [re.compile] does with a pattern: a compiled expression, a raised
    [re.error], or a pattern outside the modelled syntax. *)
Inductive compiled : Type :=
| Compiled (r : regex)
| ReError
| Beyond.

(** One open level of the parser: the finished branches of an alternation
    and the items of the branch being read (both latest first), and whether
    the latest item has just received a quantifier. *)
Record frame : Type := mkFrame {
  alts : list regex;
  items : list regex;
  repeated : bool
}.

Definition empty_frame : frame := mkFrame [] [] false.

Definition seq_of (its : list regex) : regex :=
  fold_left (fun acc it => Seq it acc) its Eps.

Definition close_frame (f : frame) : regex :=
  fold_left (fun acc br => Alt br acc) (alts f) (seq_of (items f)).

Definition push_item (r : regex) (f : frame) : frame :=
  mkFrame (alts f) (r :: items f) false.

Definition is_quantifier (c : ascii) : bool :=
  Ascii.eqb c "*" || Ascii.eqb c "+" || Ascii.eqb c "?".

Definition quantify (c : ascii) (r : regex) : regex :=
  if Ascii.eqb c "*" then Star r
  else if Ascii.eqb c "+" then Seq r (Star r)
  else Alt r Eps.

(** Characters that start a construct the model does not cover: anchors,
    character sets, counted repeats and escapes. *)
Definition is_unmodelled (c : ascii) : bool :=
  Ascii.eqb c "^" || Ascii.eqb c "$" || Ascii.eqb c "["
  || Ascii.eqb c "{" || Ascii.eqb c "\".

(** The characters [re] does not read as themselves. *)
Definition is_special (c : ascii) : bool :=
  Ascii.eqb c "(" || Ascii.eqb c ")" || Ascii.eqb c "|" || Ascii.eqb c "."
  || is_quantifier c || is_unmodelled c.

Fixpoint has_special (s : string) : bool :=
  match s with
  | EmptyString => false
  | String c s' => is_special c || has_special s'
  end.

(** The parser of [re.compile].  An unopened [)], an unclosed [(] and a
    quantifier with nothing before it raise [re.error]; [(?...)] extensions
    and a quantifier following a quantifier (lazy and possessive forms) are
    outside the model. *)
Fixpoint parse (s : string) (cur : frame) (stack : list frame) : compiled :=
  match s with
  | EmptyString =>
      match stack with
      | [] => Compiled (close_frame cur)
      | _ :: _ => ReError
      end
  | String c s' =>
      if Ascii.eqb c "(" then
        match s' with
        | String "?" _ => Beyond
        | _ => parse s' empty_frame (cur :: stack)
        end
      else if Ascii.eqb c ")" then
        match stack with
        | [] => ReError
        | parent :: stack' => parse s' (push_item (close_frame cur) parent) stack'
        end
      else if Ascii.eqb c "|" then
        parse s' (mkFrame (seq_of (items cur) :: alts cur) [] false) stack
      else if is_quantifier c then
        match items cur with
        | [] => ReError
        | it :: its =>
            if repeated cur then Beyond
            else parse s' (mkFrame (alts cur) (quantify c it :: its) true) stack
        end
      else if Ascii.eqb c "." then parse s' (push_item AnyButNewline cur) stack
      else if is_unmodelled c then Beyond
      else parse s' (push_item (Chr c) cur) stack
  end.

(** [re.compile(pat, flags=re.IGNORECASE)] *)
Definition compile (pat : string) : compiled := parse pat empty_frame [].

Fixpoint nullable (r : regex) : bool :=
  match r with
  | Empty => false
  | Eps => true
  | Chr _ => false
  | AnyButNewline => false
  | Seq r1 r2 => nullable r1 && nullable r2
  | Alt r1 r2 => nullable r1 || nullable r2
  | Star _ => true
  end.

(** What is left of [r] once the character [a] has been read, letters
    compared after case folding. *)
Fixpoint deriv (a : ascii) (r : regex) : regex :=
  match r with
  | Empty => Empty
  | Eps => Empty
  | Chr c => if Ascii.eqb (Py.tolower a) (Py.tolower c) then Eps else Empty
  | AnyButNewline => if Ascii.eqb a "010" then Empty else Eps
  | Seq r1 r2 =>
      if nullable r1 then Alt (Seq (deriv a r1) r2) (deriv a r2)
      else Seq (deriv a r1) r2
  | Alt r1 r2 => Alt (deriv a r1) (deriv a r2)
  | Star r1 => Seq (deriv a r1) (Star r1)
  end.

(** Some prefix of [s] matches [r] ([pattern.match(s) is not None]). *)
Fixpoint match_prefix (r : regex) (s : string) : bool :=
  nullable r
  || match s with
     | EmptyString => false
     | String a s' => match_prefix (deriv a r) s'
     end.

(** [pattern.search(s) is not None] *)
Fixpoint search (r : regex) (s : string) : bool :=
  match_prefix r s
  || match s with
     | EmptyString => false
     | String _ s' => search r s'
     end.

End Re.

(** ** The two spreadsheets, as [pandas] hands them over *)

Module Pandas.

(** A cell: a string, or [None] for a missing value (NaN). *)
Definition cell : Type := option string.

Record DataFrame : Type := mkDataFrame {
  ncols : nat;
  rows : list (list cell)
}.

(** [df.iloc[:, i]]; [None] stands for the [IndexError] raised when the
    frame has no column [i]. *)
Definition iloc_col (df : DataFrame) (i : nat) : option (list cell) :=
  if i <? ncols df then Some (map (fun r => nth i r None) (rows df))
  else None.

(** [series.dropna()] *)
Fixpoint dropna (col : list cell) : list string :=
  match col with
  | [] => []
  | Some s :: col' => s :: dropna col'
  | None :: col' => dropna col'
  end.

Definition mem (x : string) (l : list string) : bool :=
  existsb (String.eqb x) l.

Fixpoint unique_from (seen : list string) (l : list string) : list string :=
  match l with
  | [] => []
  | x :: l' =>
      if mem x seen then unique_from seen l'
      else x :: unique_from (x :: seen) l'
  end.

(** [series.unique()]: the values in order of first appearance. *)
Definition unique (l : list string) : list string := unique_from [] l.

(** Result of a library call: a value, a raised exception, or a call the
    model does not cover. *)
Inductive outcome (A : Type) : Type :=
| Done (a : A)
| Raised
| Beyond.
Arguments Done {A} a.
Arguments Raised {A}.
Arguments Beyond {A}.

(** Whether [series.str] is available: a column read with no string in it
    has a float dtype and the accessor raises [AttributeError]; a column
    without rows has the object dtype and the accessor works. *)
Definition str_accessor (col : list cell) : bool :=
  match col with
  | [] => true
  | _ :: _ => existsb (fun c => match c with Some _ => true | None => false end) col
  end.

(** [series.str.contains(pat, case=False, na=False)], with the default
    [regex=True]: [pat] is compiled once, then searched in every cell. *)
Definition str_contains (pat : string) (col : list cell) : outcome (list bool) :=
  if negb (str_accessor col) then Raised
  else
    match Re.compile pat with
    | Re.Compiled r =>
        Done (map (fun c => match c with
                            | Some s => Re.search r s
                            | None => false
                            end) col)
    | Re.ReError => Raised
    | Re.Beyond => Beyond
    end.

(** [mask.any()] *)
Definition any (mask : list bool) : bool := existsb (fun b => b) mask.

(** The rows a mask selects, [for idx in mask[mask].index], each with its
    index, its filename cell and its title cell. *)
Fixpoint selected (idx : nat) (mask : list bool) (filenames titles : list cell)
  : list (nat * cell * cell) :=
  match mask, filenames, titles with
  | b :: mask', f :: filenames', t :: titles' =>
      (if b then [(idx, f, t)] else [])
        ++ selected (S idx) mask' filenames' titles'
  | _, _, _ => []
  end.

(** [a == b] on two cells: a missing value equals nothing, itself included. *)
Definition cell_eqb (a b : cell) : bool :=
  match a, b with
  | Some x, Some y => String.eqb x y
  | _, _ => false
  end.

End Pandas.
Import Pandas.

(** ** The state of a [FileProcessor] *)

Record Stats : Type := mkStats {
  processed : nat;
  matched : nat;
  not_found : nat;
  copy_errors : nat
}.

Record SectionFile : Type := mkSectionFile {
  sf_filename : cell;
  sf_title : cell;
  sf_matched : bool
}.

Record MatchInfo : Type := mkMatchInfo {
  flat_ref : string;
  title : cell;
  filename : cell;
  row_index : nat
}.

Record SuccessRec : Type := mkSuccessRec {
  ok_flat_ref : string;
  ok_title : cell;
  ok_original_filename : string;
  ok_new_filename : string;
  ok_source_path : string;
  ok_destination_path : string;
  ok_destination_folder : string
}.

Record NoMatchRec : Type := mkNoMatchRec {
  nm_flat_ref : string;
  nm_reason : string
}.

Record NotFoundRec : Type := mkNotFoundRec {
  nf_flat_ref : string;
  nf_title : cell;
  nf_filename : cell;
  nf_expected_path : string;
  nf_reason : string
}.

Record CopyErrorRec : Type := mkCopyErrorRec {
  ce_flat_ref : string;
  ce_title : cell;
  ce_filename : cell;
  ce_source_path : string;
  ce_error : string
}.

(** [self.detailed_results]; the key ['copy_errors'] is the field
    [copy_error_records], its name being taken by the counter. *)
Record Detailed : Type := mkDetailed {
  successful_matches : list SuccessRec;
  no_matches_found : list NoMatchRec;
  file_not_found : list NotFoundRec;
  copy_error_records : list CopyErrorRec;
  unused_section_files : list SectionFile;
  all_flat_refs : list string;
  all_section_files : list SectionFile
}.

Record Processor : Type := mkProcessor {
  stats : Stats;
  detailed_results : Detailed
}.

(** The state [__init__] builds. *)
Definition init : Processor :=
  mkProcessor (mkStats 0 0 0 0) (mkDetailed [] [] [] [] [] [] []).

Definition with_stats (f : Stats -> Stats) (p : Processor) : Processor :=
  mkProcessor (f (stats p)) (detailed_results p).

Definition with_detailed (f : Detailed -> Detailed) (p : Processor) : Processor :=
  mkProcessor (stats p) (f (detailed_results p)).

Definition incr_processed (s : Stats) : Stats :=
  mkStats (S (processed s)) (matched s) (not_found s) (copy_errors s).
Definition incr_matched (s : Stats) : Stats :=
  mkStats (processed s) (S (matched s)) (not_found s) (copy_errors s).
Definition incr_not_found (s : Stats) : Stats :=
  mkStats (processed s) (matched s) (S (not_found s)) (copy_errors s).
Definition incr_copy_errors (s : Stats) : Stats :=
  mkStats (processed s) (matched s) (not_found s) (S (copy_errors s)).

Definition set_all_flat_refs (l : list string) (d : Detailed) : Detailed :=
  mkDetailed (successful_matches d) (no_matches_found d) (file_not_found d)
    (copy_error_records d) (unused_section_files d) l (all_section_files d).
Definition set_all_section_files (l : list SectionFile) (d : Detailed) : Detailed :=
  mkDetailed (successful_matches d) (no_matches_found d) (file_not_found d)
    (copy_error_records d) (unused_section_files d) (all_flat_refs d) l.
Definition set_unused_section_files (l : list SectionFile) (d : Detailed) : Detailed :=
  mkDetailed (successful_matches d) (no_matches_found d) (file_not_found d)
    (copy_error_records d) l (all_flat_refs d) (all_section_files d).
Definition add_no_match (r : NoMatchRec) (d : Detailed) : Detailed :=
  mkDetailed (successful_matches d) (no_matches_found d ++ [r]) (file_not_found d)
    (copy_error_records d) (unused_section_files d) (all_flat_refs d)
    (all_section_files d).
Definition add_not_found (r : NotFoundRec) (d : Detailed) : Detailed :=
  mkDetailed (successful_matches d) (no_matches_found d) (file_not_found d ++ [r])
    (copy_error_records d) (unused_section_files d) (all_flat_refs d)
    (all_section_files d).
Definition add_copy_error (r : CopyErrorRec) (d : Detailed) : Detailed :=
  mkDetailed (successful_matches d) (no_matches_found d) (file_not_found d)
    (copy_error_records d ++ [r]) (unused_section_files d) (all_flat_refs d)
    (all_section_files d).
Definition add_success (r : SuccessRec) (d : Detailed) : Detailed :=
  mkDetailed (successful_matches d ++ [r]) (no_matches_found d) (file_not_found d)
    (copy_error_records d) (unused_section_files d) (all_flat_refs d)
    (all_section_files d).

(** ** [get_flat_references] *)

(** The loop over the raw values: trim, then skip the empty string, the
    header label and anything starting with ["Flat"]. *)
Fixpoint collect_refs (flat_refs_raw : list string) : list string :=
  match flat_refs_raw with
  | [] => []
  | ref :: rest =>
      let ref_str := Py.strip ref in
      if negb (String.eqb ref_str "")
         && negb (String.eqb ref_str "Flat / House Ref")
         && negb (Py.startswith "Flat" ref_str)
      then ref_str :: collect_refs rest
      else collect_refs rest
  end.

(** Column D, [dropna().unique()], then the loop; an [IndexError] on the
    column is caught and gives the empty list. *)
Definition get_flat_references (accommodation_df : DataFrame) : list string :=
  match iloc_col accommodation_df 3 with
  | Some col => collect_refs (unique (dropna col))
  | None => []
  end.

(** ** [find_matching_sections] *)

(** The section files found before the loop over the references. *)
Definition section_files_of (sel : list (nat * cell * cell)) : list SectionFile :=
  map (fun '(_, f, t) => mkSectionFile f t false) sel.

(** The inner [for section_file in ...: if ...: ...; break]: the first entry
    with this filename and this title is marked. *)
Fixpoint mark_matched (f t : cell) (l : list SectionFile) : list SectionFile :=
  match l with
  | [] => []
  | sf :: l' =>
      if cell_eqb (sf_filename sf) f && cell_eqb (sf_title sf) t
      then mkSectionFile (sf_filename sf) (sf_title sf) true :: l'
      else sf :: mark_matched f t l'
  end.

(** The rows selected for one reference: each gives a match, marks its
    section file and counts as matched. *)
Fixpoint record_matches (ref : string) (sel : list (nat * cell * cell))
    (p : Processor) (matches : list MatchInfo) : Processor * list MatchInfo :=
  match sel with
  | [] => (p, matches)
  | (idx, f, t) :: sel' =>
      let p1 :=
        with_detailed
          (fun d => set_all_section_files (mark_matched f t (all_section_files d)) d) p in
      record_matches ref sel' (with_stats incr_matched p1)
        (matches ++ [mkMatchInfo ref t f idx])
  end.

Definition target_pattern (ref : string) : string := "Sections - " ++ ref.

(** The loop over the references. *)
Fixpoint match_refs (filenames titles : list cell) (flat_refs : list string)
    (p : Processor) (matches : list MatchInfo)
  : Processor * outcome (list MatchInfo) :=
  match flat_refs with
  | [] => (p, Done matches)
  | ref :: rest =>
      let p1 := with_stats incr_processed p in
      match str_contains (target_pattern ref) titles with
      | Done matching_rows =>
          if any matching_rows then
            let '(p2, matches2) :=
              record_matches ref (selected 0 matching_rows filenames titles) p1 matches in
            match_refs filenames titles rest p2 matches2
          else
            match_refs filenames titles rest
              (with_detailed
                 (add_no_match
                    (mkNoMatchRec ref "No matching section found in architect spreadsheet"))
                 (with_stats incr_not_found p1))
              matches
      | Raised => (p1, Raised)
      | Beyond => (p1, Beyond)
      end
  end.

Definition unused_of (l : list SectionFile) : list SectionFile :=
  filter (fun sf => negb (sf_matched sf)) l.

(** The body of the [try] block. *)
Definition find_matching_sections_body (architect_df : DataFrame)
    (flat_refs : list string) (p : Processor)
  : Processor * outcome (list MatchInfo) :=
  match iloc_col architect_df 1, iloc_col architect_df 0 with
  | Some titles, Some filenames =>
      let p1 := with_detailed (set_all_flat_refs flat_refs) p in
      match str_contains "Sections" titles with
      | Done section_mask =>
          let p2 :=
            with_detailed
              (fun d =>
                 set_all_section_files
                   (all_section_files d
                      ++ section_files_of (selected 0 section_mask filenames titles)) d)
              p1 in
          match match_refs filenames titles flat_refs p2 [] with
          | (p3, Done matches) =>
              (with_detailed
                 (fun d =>
                    set_unused_section_files
                      (unused_section_files d ++ unused_of (all_section_files d)) d)
                 p3,
               Done matches)
          | (p3, other) => (p3, other)
          end
      | Raised => (p1, Raised)
      | Beyond => (p1, Beyond)
      end
  | _, _ => (p, Raised)
  end.

(** The method: an exception raised in the body is caught and the method
    returns the empty list, the state staying as the body left it.  [None]
    is a run the model does not cover. *)
Definition find_matching_sections (architect_df : DataFrame)
    (flat_refs : list string) (p : Processor)
  : Processor * option (list MatchInfo) :=
  match find_matching_sections_body architect_df flat_refs p with
  | (p', Done matches) => (p', Some matches)
  | (p', Raised) => (p', Some [])
  | (p', Beyond) => (p', None)
  end.

(** ** [generate_new_filename] *)

Definition generate_new_filename (original_filename ref drawing_type : string)
  : string :=
  let house_type := Py.remove_spaces ref in
  let '(orig_name, file_ext) :=
    match Py.rsplit_dot original_filename with
    | Some (name, ext) => (name, "." ++ ext)
    | None => (original_filename, ".pdf")
    end in
  drawing_type ++ "_" ++ house_type ++ "_" ++ orig_name ++ file_ext.

(** ** The file system side: [create_output_structure], [copy_file] and
    [process_files] *)

(** A call made to the file system. *)
Inductive fs_call : Type :=
| Mkdir (path : string)
| Exists (path : string)
| Copy2 (src dst : string).

(** What a run prints and writes once the copies are done. *)
Inductive event : Type :=
| PrintStatistics (s : Stats)
| GenerateReport (d : Detailed).

Section FileSystem.

(** The state of the disk. *)
Variable FS : Type.
(** [str(path / name)] *)
Variable joinpath : string -> string -> string.
(** [path.exists()] *)
Variable fs_exists : FS -> string -> bool.
(** [path.mkdir(parents=True, exist_ok=True)]: the disk afterwards, and the
    text of the exception when one is raised. *)
Variable fs_mkdir : FS -> string -> FS * option string.
(** [shutil.copy2(src, dst)], likewise. *)
Variable fs_copy2 : FS -> string -> string -> FS * option string.

(** The disk and the calls made to it so far, oldest first. *)
Record World : Type := mkWorld {
  disk : FS;
  calls : list fs_call
}.

Definition base_path : string := "C:\Users\IS19\Documents\as_built_extraction".
Definition architect_path : string := joinpath base_path "architect".
Definition processed_path : string := joinpath base_path "processed".

(** Returns the output directory, or [None] when [mkdir] raised. *)
Definition create_output_structure (ref : string) (w : World)
  : World * option string :=
  let output_path := joinpath processed_path ref in
  let '(d, err) := fs_mkdir (disk w) output_path in
  let w' := mkWorld d (calls w ++ [Mkdir output_path]) in
  match err with
  | None => (w', Some output_path)
  | Some _ => (w', None)
  end.

(** The name looked up in the architect directory. *)
Definition source_filename_with_ext (source_filename : string) : string :=
  if negb (Py.endswith ".pdf" (Py.lower source_filename))
  then source_filename ++ ".pdf"
  else source_filename.

Definition copy_file (source_filename : cell) (destination_path : string)
    (match_info : MatchInfo) (p : Processor) (w : World)
  : Processor * World * bool :=
  match source_filename with
  | None =>
      (* a missing cell is a float: [.lower()] raises AttributeError *)
      (with_detailed
         (add_copy_error
            (mkCopyErrorRec (flat_ref match_info) (title match_info)
               source_filename "Unknown"
               "'float' object has no attribute 'lower'"))
         (with_stats incr_copy_errors p),
       w, false)
  | Some name =>
      let with_ext := source_filename_with_ext name in
      let source_file := joinpath architect_path with_ext in
      let w1 := mkWorld (disk w) (calls w ++ [Exists source_file]) in
      if negb (fs_exists (disk w) source_file) then
        (with_detailed
           (add_not_found
              (mkNotFoundRec (flat_ref match_info) (title match_info)
                 source_filename source_file
                 "File not found in architect directory"))
           (with_stats incr_copy_errors p),
         w1, false)
      else
        let new_filename :=
          generate_new_filename with_ext (flat_ref match_info) "sections" in
        let dest_file := joinpath destination_path new_filename in
        let '(d, err) := fs_copy2 (disk w) source_file dest_file in
        let w2 := mkWorld d (calls w1 ++ [Copy2 source_file dest_file]) in
        match err with
        | None =>
            (with_detailed
               (add_success
                  (mkSuccessRec (flat_ref match_info) (title match_info)
                     with_ext new_filename source_file dest_file
                     destination_path))
               p,
             w2, true)
        | Some e =>
            (with_detailed
               (add_copy_error
                  (mkCopyErrorRec (flat_ref match_info) (title match_info)
                     source_filename source_file e))
               (with_stats incr_copy_errors p),
             w2, false)
        end
  end.

(** One turn of the loop of [process_files] over the matches. *)
Definition process_match (m : MatchInfo) (p : Processor) (w : World)
  : Processor * World :=
  match create_output_structure (flat_ref m) w with
  | (w1, None) => (p, w1)
  | (w1, Some output_dir) =>
      let '(p2, w2, _) := copy_file (filename m) output_dir m p w1 in
      (p2, w2)
  end.

Fixpoint process_matches (matches : list MatchInfo) (p : Processor) (w : World)
  : Processor * World :=
  match matches with
  | [] => (p, w)
  | m :: rest =>
      let '(p1, w1) := process_match m p w in
      process_matches rest p1 w1
  end.

(** What a run leaves behind. *)
Record Run : Type := mkRun {
  returned : bool;
  final : Processor;
  world : World;
  emitted : list event
}.

(** [process_files], started on a fresh processor.  [loaded] is what
    [load_spreadsheets] read, [None] when it failed.  The result is [None]
    only for a run the model does not cover. *)
Definition process_files (loaded : option (DataFrame * DataFrame)) (w : World)
  : option Run :=
  match loaded with
  | None => Some (mkRun false init w [])
  | Some (accommodation_df, architect_df) =>
      match get_flat_references accommodation_df with
      | [] => Some (mkRun false init w [])
      | flat_refs =>
          match find_matching_sections architect_df flat_refs init with
          | (_, None) => None
          | (p1, Some []) => Some (mkRun true p1 w [])
          | (p1, Some matches) =>
              let '(p2, w2) := process_matches matches p1 w in
              Some (mkRun true p2 w2
                      [PrintStatistics (stats p2);
                       GenerateReport (detailed_results p2)])
          end
      end
  end.

End FileSystem.

Arguments mkWorld {FS} disk calls.
Arguments disk {FS} w.
Arguments calls {FS} w.

(** ** The sheets of [generate_detailed_report] that are computed

    The sheets 'Unused Section Files', 'All Flat References', 'All Section
    Files' and 'Summary by Flat Ref' are built from [detailed_results] by the
    loops below.  The other sheets copy a list field by field, and the
    summary sheet holds a floating-point rate; they are not modelled, nor is
    the writing of the workbook. *)

Module Report.

(** [enumerate(l, i)] *)
Fixpoint enumerate (i : nat) {A : Type} (l : list A) : list (nat * A) :=
  match l with
  | [] => []
  | x :: l' => (i, x) :: enumerate (S i) l'
  end.

Record UnusedRow : Type := mkUnusedRow {
  un_filename : cell;
  un_title : cell;
  un_status : string
}.

Record FlatRefRow : Type := mkFlatRefRow {
  fr_no : nat;
  fr_flat_ref : string;
  fr_status : string;
  fr_files_copied : nat
}.

Record SectionRow : Type := mkSectionRow {
  sc_no : nat;
  sc_filename : cell;
  sc_title : cell;
  sc_status : string
}.

Record SummaryRow : Type := mkSummaryRow {
  sr_flat_ref : string;
  sr_files_copied : nat;
  sr_status : string;
  sr_output_folder : string
}.

(** Sheet 6, 'Unused Section Files'. *)
Definition unused_section_files_sheet (d : Detailed) : list UnusedRow :=
  map (fun item => mkUnusedRow (sf_filename item) (sf_title item) "UNUSED")
    (unused_section_files d).

(** Sheet 7, 'All Flat References'. *)
Definition all_flat_references_sheet (d : Detailed) : list FlatRefRow :=
  map (fun '(i, ref) =>
         let processed :=
           existsb (fun item => String.eqb (ok_flat_ref item) ref)
             (successful_matches d) in
         let files_count :=
           length (filter (fun item => String.eqb (ok_flat_ref item) ref)
                     (successful_matches d)) in
         mkFlatRefRow i ref
           (if processed then "PROCESSED" else "NOT PROCESSED")
           (if processed then files_count else 0))
    (enumerate 1 (all_flat_refs d)).

(** Sheet 8, 'All Section Files'. *)
Definition all_section_files_sheet (d : Detailed) : list SectionRow :=
  map (fun '(i, section_file) =>
         mkSectionRow i (sf_filename section_file) (sf_title section_file)
           (if sf_matched section_file then "USED" else "UNUSED"))
    (enumerate 1 (all_section_files d)).

(** The dictionary [by_flat_ref]: keys in order of insertion. *)
Definition dict : Type := list (string * list SuccessRec).

(** [d.get(k)] *)
Fixpoint dict_get (k : string) (d : dict) : option (list SuccessRec) :=
  match d with
  | [] => None
  | (k', v) :: d' => if String.eqb k k' then Some v else dict_get k d'
  end.

(** [d[k] = v] *)
Fixpoint dict_set (k : string) (v : list SuccessRec) (d : dict) : dict :=
  match d with
  | [] => [(k, v)]
  | (k', v') :: d' =>
      if String.eqb k k' then (k', v) :: d' else (k', v') :: dict_set k v d'
  end.

(** One turn of the grouping loop: the key is entered with an empty list
    when absent, then the item is appended to the key's list. *)
Definition group_step (by_flat_ref : dict) (item : SuccessRec) : dict :=
  let ref := ok_flat_ref item in
  let d1 :=
    match dict_get ref by_flat_ref with
    | Some _ => by_flat_ref
    | None => dict_set ref [] by_flat_ref
    end in
  match dict_get ref d1 with
  | Some files => dict_set ref (files ++ [item]) d1
  | None => d1
  end.

Definition group_by_flat_ref (items : list SuccessRec) : dict :=
  fold_left group_step items [].

(** Sheet 9, 'Summary by Flat Ref'. *)
Definition summary_by_flat_ref_sheet (d : Detailed) : list SummaryRow :=
  let by_flat_ref := group_by_flat_ref (successful_matches d) in
  map (fun ref =>
         let files :=
           match dict_get ref by_flat_ref with
           | Some v => v
           | None => []
           end in
         mkSummaryRow ref (length files)
           (match files with [] => "NO MATCH" | _ :: _ => "SUCCESS" end)
           (match files with
            | [] => "N/A"
            | first :: _ => ok_destination_folder first
            end))
    (all_flat_refs d).

End Report.

(** ** [validate_data.py]: [test_matching_logic] and
    [check_file_availability]

    What the two functions print is kept as a list of lines, each line
    holding the values printed; the banners are left out.  A line stands for
    the [print] calls named beside it. *)

Module Validate.

Inductive test_line : Type :=
| Testing (flat_refs : list string)           (* "Testing with flat references" *)
| CannotAccess                                (* "Cannot access Column D" *)
| Looking (ref pattern : string)              (* "Looking for matches", "Target pattern" *)
| FoundMatches (n : nat) (rows : list (cell * cell))
                                              (* "Found n match(es)", one line a row *)
| NoMatches                                   (* "No matches found" *)
| PartialMatches (titles : list cell)         (* "But found partial matches", the titles *)
| TestError.                                  (* "Error in matching logic test" *)

(** [mask.sum()] *)
Definition sum (mask : list bool) : nat := length (filter (fun b => b) mask).

(** The loop over the references tested.  [None] is a run the model does
    not cover; an exception raised by [str.contains] ends the loop with the
    error line. *)
Fixpoint test_refs (filenames titles : list cell) (flat_refs : list string)
  : option (list test_line) :=
  match flat_refs with
  | [] => Some []
  | ref :: rest =>
      let looking := Looking ref (target_pattern ref) in
      match str_contains (target_pattern ref) titles with
      | Done matching_rows =>
          if any matching_rows then
            match test_refs filenames titles rest with
            | Some lines =>
                Some (looking
                        :: FoundMatches (sum matching_rows)
                             (map (fun '(_, f, t) => (f, t))
                                (selected 0 matching_rows filenames titles))
                        :: lines)
            | None => None
            end
          else
            match str_contains ref titles with
            | Done partial_matches =>
                match test_refs filenames titles rest with
                | Some lines =>
                    Some (looking :: NoMatches
                            :: (if any partial_matches
                                then [PartialMatches
                                        (map (fun '(_, _, t) => t)
                                           (firstn 3
                                              (selected 0 partial_matches
                                                 filenames titles)))]
                                else [])
                            ++ lines)
                | None => None
                end
            | Raised => Some [looking; NoMatches; TestError]
            | Beyond => None
            end
      | Raised => Some [looking; TestError]
      | Beyond => None
      end
  end.

(** [test_matching_logic]; [loaded] is what the two [read_excel] calls
    gave, [None] when one of them failed. *)
Definition test_matching_logic (loaded : option (DataFrame * DataFrame))
  : option (list test_line) :=
  match loaded with
  | None => Some [TestError]
  | Some (df_acc, df_arch) =>
      if 3 <? ncols df_acc then
        match iloc_col df_acc 3 with
        | Some col =>
            let flat_refs := firstn 5 (unique (dropna col)) in
            if 1 <? ncols df_arch then
              match iloc_col df_arch 1, iloc_col df_arch 0 with
              | Some titles, Some filenames =>
                  match test_refs filenames titles flat_refs with
                  | Some lines => Some (Testing flat_refs :: lines)
                  | None => None
                  end
              | _, _ => Some [Testing flat_refs; TestError]
              end
            else Some [Testing flat_refs]
        | None => Some [TestError]
        end
      else Some [CannotAccess]
  end.

Inductive availability_line : Type :=
| Checking (n : nat)                  (* "Checking n unique filenames..." *)
| FoundFile (filename : string)       (* "Found: ..." *)
| MissingFile (filename : string)     (* "Missing: ..." *)
| Summary (found missing : nat)       (* the three summary lines *)
| NamingNote                          (* the two lines of the note *)
| AvailabilityError.                  (* "Error checking file availability" *)

Section Availability.

Variable FS : Type.
Variable joinpath : string -> string -> string.
Variable fs_exists : FS -> string -> bool.

(** The loop over the filenames checked, with the two counters. *)
Fixpoint check_files (disk : FS) (filenames : list string)
    (found_count missing_count : nat) : nat * nat * list availability_line :=
  match filenames with
  | [] => (found_count, missing_count, [])
  | filename :: rest =>
      let file_path := joinpath (architect_path joinpath) filename in
      if fs_exists disk file_path then
        let '(f, m, lines) := check_files disk rest (S found_count) missing_count in
        (f, m, FoundFile filename :: lines)
      else
        let '(f, m, lines) := check_files disk rest found_count (S missing_count) in
        (f, m, MissingFile filename :: lines)
  end.

(** [check_file_availability]; [loaded] is the architect frame, [None]
    when [read_excel] failed. *)
Definition check_file_availability (loaded : option DataFrame) (disk : FS)
  : list availability_line :=
  match loaded with
  | None => [AvailabilityError]
  | Some df_arch =>
      if 0 <? ncols df_arch then
        match iloc_col df_arch 0 with
        | Some col =>
            let filenames := unique (dropna col) in
            let '(found_count, missing_count, lines) :=
              check_files disk (firstn 20 filenames) 0 0 in
            (Checking (length filenames) :: lines
               ++ [Summary found_count missing_count]
               ++ (if 0 <? missing_count then [NamingNote] else []))%list
        | None => [AvailabilityError]
        end
      else []
  end.

End Availability.

End Validate.

(** ** A small disk to run the code on *)

(** The paths that exist, and whether the disk refuses writes. *)
Record SimpleFS : Type := mkSimpleFS {
  paths : list string;
  read_only : bool
}.

Definition simple_join (a b : string) : string := a ++ "\" ++ b.

Definition simple_exists (d : SimpleFS) (path : string) : bool :=
  mem path (paths d).

Definition simple_mkdir (d : SimpleFS) (path : string) : SimpleFS * option string :=
  if mem path (paths d) then (d, None)
  else if read_only d then (d, Some "[Errno 13] Permission denied")
  else (mkSimpleFS (path :: paths d) (read_only d), None).

Definition simple_copy2 (d : SimpleFS) (src dst : string)
  : SimpleFS * option string :=
  if read_only d then (d, Some "[Errno 13] Permission denied")
  else (mkSimpleFS (dst :: paths d) (read_only d), None).

(** ** Vocabulary of the statements *)

(** Literal, case-insensitive substring containment: [p.lower() in s.lower()]. *)
Definition contains_ci (p s : string) : bool :=
  Py.contains (Py.lower p) (Py.lower s).

(** The expression that reads [s] character by character, followed by [k]. *)
Fixpoint literal_then (s : string) (k : Re.regex) : Re.regex :=
  match s with
  | EmptyString => k
  | String c s' => Re.Seq (Re.Chr c) (literal_then s' k)
  end.

(** The expression [re] compiles a pattern without special characters to. *)
Definition literal (s : string) : Re.regex := literal_then s Re.Eps.

(** The items the parser holds after reading the plain text [s]. *)
Fixpoint push_chars (s : string) (its : list Re.regex) : list Re.regex :=
  match s with
  | EmptyString => its
  | String c s' => push_chars s' (Re.Chr c :: its)
  end.

(** The strings an expression stands for, letters compared after case
    folding. *)
Inductive denotes : Re.regex -> string -> Prop :=
| DEps : denotes Re.Eps ""
| DChr c a : Py.tolower a = Py.tolower c -> denotes (Re.Chr c) (String a "")
| DAny a : a <> "010"%char -> denotes Re.AnyButNewline (String a "")
| DSeq r1 r2 s1 s2 :
    denotes r1 s1 -> denotes r2 s2 -> denotes (Re.Seq r1 r2) (s1 ++ s2)
| DAltL r1 r2 s : denotes r1 s -> denotes (Re.Alt r1 r2) s
| DAltR r1 r2 s : denotes r2 s -> denotes (Re.Alt r1 r2) s
| DStarNil r : denotes (Re.Star r) ""
| DStarApp r s1 s2 :
    denotes r s1 -> denotes (Re.Star r) s2 -> denotes (Re.Star r) (s1 ++ s2).

(** Removal of every whitespace character, the specification's reading of
    the key normalisation. *)
Fixpoint remove_whitespace (s : string) : string :=
  match s with
  | EmptyString => EmptyString
  | String c s' =>
      if Py.isspace c then remove_whitespace s'
      else String c (remove_whitespace s')
  end.

(** A key whose pattern lies within the modelled syntax. *)
Definition modelled (ref : string) : Prop :=
  Re.compile (target_pattern ref) <> Re.Beyond.

(** A catalog, one (filename, title) pair a row, as the architect frame. *)
Definition catalog (entries : list (cell * cell)) : DataFrame :=
  mkDataFrame 2 (map (fun '(f, t) => [f; t]) entries).

(** An accommodation schedule whose column D holds the given cells. *)
Definition schedule (column_d : list cell) : DataFrame :=
  mkDataFrame 4 (map (fun c => [None; None; None; c]) column_d).

(** The match built from a selected row. *)
Definition row_match (ref : string) (row : nat * cell * cell) : MatchInfo :=
  let '(idx, f, t) := row in mkMatchInfo ref t f idx.

(** The section files after the rows selected for one key are marked. *)
Definition mark_all (sel : list (nat * cell * cell)) (l : list SectionFile) :=
  fold_left (fun l row => let '(_, f, t) := row in mark_matched f t l) sel l.

(** The rows selected for one key; none when [str.contains] raised. *)
Definition key_rows (filenames titles : list cell) (ref : string)
  : list (nat * cell * cell) :=
  match str_contains (target_pattern ref) titles with
  | Done mask => selected 0 mask filenames titles
  | _ => []
  end.

(** [matching_rows.any()] for one key. *)
Definition key_matches (titles : list cell) (ref : string) : bool :=
  match str_contains (target_pattern ref) titles with
  | Done mask => any mask
  | _ => false
  end.

(** The matches of a loop that ran to its end: key order, then row order. *)
Definition records_of (filenames titles : list cell) (flat_refs : list string)
  : list MatchInfo :=
  flat_map (fun ref => map (row_match ref) (key_rows filenames titles ref)) flat_refs.

(** The keys with no matching row. *)
Definition unmatched_refs (titles : list cell) (flat_refs : list string)
  : list string :=
  filter (fun ref => negb (key_matches titles ref)) flat_refs.

(** The entry of [no_matches_found] for a key. *)
Definition no_match_rec (ref : string) : NoMatchRec :=
  mkNoMatchRec ref "No matching section found in architect spreadsheet".

(** The title holds "Sections", letter case apart. *)
Definition holds_sections (c : cell) : bool :=
  match c with
  | Some s => contains_ci "Sections" s
  | None => false
  end.

(** The title is found by a compiled pattern. *)
Definition found_by (r : Re.regex) (c : cell) : bool :=
  match c with
  | Some s => Re.search r s
  | None => false
  end.

(** The test of the extractor loop on a trimmed value. *)
Definition kept (ref_str : string) : bool :=
  negb (String.eqb ref_str "")
  && negb (String.eqb ref_str "Flat / House Ref")
  && negb (Py.startswith "Flat" ref_str).

(** [l1] is [l2] with some elements left out, the order kept. *)
Inductive subseq {A : Type} : list A -> list A -> Prop :=
| subseq_nil : subseq [] []
| subseq_skip x l1 l2 : subseq l1 l2 -> subseq l1 (x :: l2)
| subseq_keep x l1 l2 : subseq l1 l2 -> subseq (x :: l1) (x :: l2).

Definition is_mkdir (c : fs_call) : bool :=
  match c with Mkdir _ => true | _ => false end.

Definition is_copy2 (c : fs_call) : bool :=
  match c with Copy2 _ _ => true | _ => false end.

(** The number of calls of one kind in a log. *)
Definition count_calls (kind : fs_call -> bool) (l : list fs_call) : nat :=
  length (filter kind l).

(** The catalog rows whose title holds the key's pattern as plain text,
    letter case apart, each with its row index. *)
Definition literal_rows (entries : list (cell * cell)) (ref : string)
  : list (nat * cell * cell) :=
  selected 0
    (map (fun c => match c with
                   | Some s => contains_ci (target_pattern ref) s
                   | None => false
                   end) (map snd entries))
    (map fst entries) (map snd entries).

Definition section_key (sf : SectionFile) : cell * cell :=
  (sf_filename sf, sf_title sf).

(** What a successful copy records. *)
Definition well_recorded (joinpath : string -> string -> string) (r : SuccessRec)
  : Prop :=
  ok_destination_folder r = joinpath (processed_path joinpath) (ok_flat_ref r)
  /\ ok_destination_path r = joinpath (ok_destination_folder r) (ok_new_filename r)
  /\ ok_source_path r = joinpath (architect_path joinpath) (ok_original_filename r)
  /\ ok_new_filename r
     = "sections_" ++ Py.remove_spaces (ok_flat_ref r) ++ "_" ++ ok_original_filename r
  /\ Py.endswith ".pdf" (Py.lower (ok_original_filename r)) = true.

(** What [n] turns of the loop over matches with the keys [refs] do to the
    processor and to the log: the lists and counters of the matching stage
    stay, [n] calls of [mkdir] are logged and at most [n] copies, at most [n]
    records are added, the counter of copy errors grows with the missing
    files and the copy errors, and every successful copy is well recorded. *)
Record loop_effect (joinpath : string -> string -> string) (refs : list string)
    (n : nat) (p p' : Processor) (l l' : list fs_call) : Prop := mkLoopEffect {
  le_processed : processed (stats p') = processed (stats p);
  le_matched : matched (stats p') = matched (stats p);
  le_not_found : not_found (stats p') = not_found (stats p);
  le_no_matches :
    no_matches_found (detailed_results p') = no_matches_found (detailed_results p);
  le_unused :
    unused_section_files (detailed_results p')
    = unused_section_files (detailed_results p);
  le_flat_refs : all_flat_refs (detailed_results p') = all_flat_refs (detailed_results p);
  le_sections :
    all_section_files (detailed_results p') = all_section_files (detailed_results p);
  le_mkdir : count_calls is_mkdir l' = count_calls is_mkdir l + n;
  le_records :
    exists ok nf ce,
      successful_matches (detailed_results p')
      = (successful_matches (detailed_results p) ++ ok)%list
      /\ file_not_found (detailed_results p')
         = (file_not_found (detailed_results p) ++ nf)%list
      /\ copy_error_records (detailed_results p')
         = (copy_error_records (detailed_results p) ++ ce)%list
      /\ length ok + length nf + length ce <= n
      /\ copy_errors (stats p') = copy_errors (stats p) + length nf + length ce
      /\ count_calls is_copy2 l' <= count_calls is_copy2 l + n
      /\ count_calls is_copy2 l + length ok <= count_calls is_copy2 l'
      /\ Forall (fun r => In (ok_flat_ref r) refs /\ well_recorded joinpath r) ok
}.

Definition for_ref (ref : string) (item : SuccessRec) : bool :=
  String.eqb (ok_flat_ref item) ref.

(** What the dictionary holds for a key: the items of the key seen so far,
    in order, once there is one. *)
Definition groups (d : Report.dict) (items : list SuccessRec) : Prop :=
  forall ref,
    Report.dict_get ref d
    = match filter (for_ref ref) items with
      | [] => None
      | files => Some files
      end.

(** The row of 'Summary by Flat Ref' for a key, from the successful copies
    of that key. *)
Definition summary_row (d : Detailed) (ref : string) : Report.SummaryRow :=
  let files := filter (for_ref ref) (successful_matches d) in
  Report.mkSummaryRow ref (length files)
    (match files with [] => "NO MATCH" | _ :: _ => "SUCCESS" end)
    (match files with
     | [] => "N/A"
     | first :: _ => ok_destination_folder first
     end).

Definition is_found_line (l : Validate.availability_line) : bool :=
  match l with Validate.FoundFile _ => true | _ => false end.

(** The matches a transcript of [test_matching_logic] announces. *)
Fixpoint announced_matches (lines : list Validate.test_line) : nat :=
  match lines with
  | [] => 0
  | Validate.FoundMatches n _ :: rest => n + announced_matches rest
  | _ :: rest => announced_matches rest
  end.

(** The keys a transcript of [test_matching_logic] reports without match. *)
Fixpoint announced_misses (lines : list Validate.test_line) : nat :=
  match lines with
  | [] => 0
  | Validate.NoMatches :: rest => S (announced_misses rest)
  | _ :: rest => announced_misses rest
  end.

(** ** The pattern engine and the meaning of expressions *)

Lemma append_empty (s1 s2 : string) : s1 ++ s2 = "" -> s1 = "" /\ s2 = "".
Proof. destruct s1; cbn; [now intros -> | discriminate]. Qed.

Lemma denotes_empty_nullable (r : Re.regex) (s : string) :
  denotes r s -> s = "" -> Re.nullable r = true.
Proof.
  induction 1; intros E; try discriminate; try reflexivity; cbn.
  - destruct (append_empty _ _ E) as [E1 E2].
    now rewrite IHdenotes1, IHdenotes2.
  - now rewrite IHdenotes.
  - rewrite IHdenotes by assumption. apply orb_true_r.
Qed.

Lemma nullable_denotes (r : Re.regex) :
  Re.nullable r = true <-> denotes r "".
Proof.
  split; [|intros H; now apply (denotes_empty_nullable r "")].
  induction r; cbn; intros H; try discriminate.
  - constructor.
  - apply andb_true_iff in H as [H1 H2].
    change "" with ("" ++ ""). constructor; auto.
  - apply orb_true_iff in H as [H|H]; [apply DAltL | apply DAltR]; auto.
  - constructor.
Qed.

Lemma deriv_sound (a : ascii) (r : Re.regex) : forall s,
  denotes (Re.deriv a r) s -> denotes r (String a s).
Proof.
  induction r; cbn [Re.deriv]; intros s H.
  - inversion H.
  - inversion H.
  - destruct (Ascii.eqb_spec (Py.tolower a) (Py.tolower c)) as [E|E];
      inversion H; subst. now constructor.
  - destruct (Ascii.eqb_spec a "010"%char) as [E|E]; inversion H; subst.
    now constructor.
  - assert (Hseq : forall s, denotes (Re.Seq (Re.deriv a r1) r2) s ->
                             denotes (Re.Seq r1 r2) (String a s)).
    { intros s' H'. inversion H'; subst.
      change (String a (s1 ++ s2)) with (String a s1 ++ s2). constructor; auto. }
    destruct (Re.nullable r1) eqn:N; [|now apply Hseq].
    inversion H; subst; [now apply Hseq|].
    change (String a s) with ("" ++ String a s). constructor; auto.
    now apply nullable_denotes.
  - inversion H; subst; [apply DAltL | apply DAltR]; auto.
  - inversion H; subst.
    change (String a (s1 ++ s2)) with (String a s1 ++ s2). constructor; auto.
Qed.

Lemma deriv_complete (a : ascii) (r : Re.regex) (w : string) :
  denotes r w -> forall t, w = String a t -> denotes (Re.deriv a r) t.
Proof.
  induction 1 as [|c b Hb|b Hb|r1 r2 s1 s2 H1 IH1 H2 IH2|r1 r2 s H1 IH1
                  |r1 r2 s H2 IH2| |r s1 s2 H1 IH1 H2 IH2];
    intros t E; cbn [Re.deriv]; try discriminate.
  - injection E as Eb Et. subst b t. rewrite Hb, Ascii.eqb_refl. constructor.
  - injection E as Eb Et. subst b t.
    destruct (Ascii.eqb_spec a "010"%char); [contradiction | constructor].
  - destruct s1 as [|b s1].
    + cbn in E. subst s2.
      rewrite (denotes_empty_nullable r1 "" H1 eq_refl).
      apply DAltR. now apply IH2.
    + cbn in E. injection E as Eb Et. subst b t.
      assert (Hs : denotes (Re.Seq (Re.deriv a r1) r2) (s1 ++ s2))
        by (constructor; auto).
      destruct (Re.nullable r1); [now apply DAltL | exact Hs].
  - apply DAltL. auto.
  - apply DAltR. auto.
  - destruct s1 as [|b s1].
    + cbn in E. now apply IH2.
    + cbn in E. injection E as Eb Et. subst b t. constructor; auto.
Qed.

(** [match_prefix] finds exactly the strings with a prefix the expression
    stands for. *)
Lemma match_prefix_denotes (s : string) : forall r,
  Re.match_prefix r s = true <-> exists s1 s2, s = s1 ++ s2 /\ denotes r s1.
Proof.
  induction s as [|a s IH]; intros r; cbn [Re.match_prefix].
  - rewrite orb_false_r, nullable_denotes. split.
    + intros H. now exists "", "".
    + intros (s1 & s2 & E & H). symmetry in E.
      apply append_empty in E as [-> _]. exact H.
  - rewrite orb_true_iff, IH, nullable_denotes. split.
    + intros [H|(s1 & s2 & -> & H)].
      * now exists "", (String a s).
      * exists (String a s1), s2. split; [reflexivity | now apply deriv_sound].
    + intros (s1 & s2 & E & H). destruct s1 as [|b s1]; [now left|].
      right. cbn in E. injection E as <- ->. exists s1, s2.
      split; [reflexivity | now apply (deriv_complete a r (String a s1))].
Qed.

(** [search] finds exactly the strings with a substring the expression
    stands for. *)
Lemma search_denotes (r : Re.regex) (s : string) :
  Re.search r s = true <->
  exists s0 s1 s2, s = s0 ++ s1 ++ s2 /\ denotes r s1.
Proof.
  induction s as [|a s IH]; cbn [Re.search].
  - rewrite orb_false_r, match_prefix_denotes. split.
    + intros (s1 & s2 & E & H). now exists "", s1, s2.
    + intros (s0 & s1 & s2 & E & H). symmetry in E.
      apply append_empty in E as [-> E]. now exists s1, s2.
  - rewrite orb_true_iff, IH, match_prefix_denotes. split.
    + intros [(s1 & s2 & E & H)|(s0 & s1 & s2 & -> & H)].
      * now exists "", s1, s2.
      * now exists (String a s0), s1, s2.
    + intros (s0 & s1 & s2 & E & H). destruct s0 as [|b s0].
      * left. now exists s1, s2.
      * right. cbn in E. injection E as <- ->. now exists s0, s1, s2.
Qed.

(** ** The pattern engine on patterns without special characters *)

Lemma parse_plain (s : string) : forall (f : Re.frame),
  Re.has_special s = false ->
  Re.parse s f [] =
  Re.Compiled (fold_left (fun acc br => Re.Alt br acc) (Re.alts f)
                 (Re.seq_of (push_chars s (Re.items f)))).
Proof.
  induction s as [|c s IH]; intros f H.
  - reflexivity.
  - simpl in H. apply orb_false_iff in H as [Hc Hs].
    unfold Re.is_special in Hc.
    repeat (apply orb_false_iff in Hc as [Hc ?]).
    cbn [Re.parse]. rewrite Hc.
    repeat match goal with
           | E : _ = false |- _ => rewrite E; clear E
           end.
    rewrite IH by assumption. reflexivity.
Qed.

Lemma seq_of_push_chars (s : string) : forall its acc,
  fold_left (fun a it => Re.Seq it a) (push_chars s its) acc =
  fold_left (fun a it => Re.Seq it a) its (literal_then s acc).
Proof.
  induction s as [|c s IH]; intros its acc; simpl.
  - reflexivity.
  - rewrite IH. reflexivity.
Qed.

Lemma compile_plain (s : string) :
  Re.has_special s = false -> Re.compile s = Re.Compiled (literal s).
Proof.
  intros H. unfold Re.compile. rewrite parse_plain by assumption.
  simpl. unfold Re.seq_of. rewrite seq_of_push_chars. reflexivity.
Qed.

Lemma match_prefix_alt (s : string) : forall r1 r2,
  Re.match_prefix (Re.Alt r1 r2) s = Re.match_prefix r1 s || Re.match_prefix r2 s.
Proof.
  induction s as [|a s IH]; intros r1 r2; simpl.
  - now rewrite !orb_false_r.
  - rewrite IH.
    destruct (Re.nullable r1), (Re.nullable r2); simpl;
      try reflexivity; now rewrite ?orb_true_r.
Qed.

Lemma match_prefix_empty (s : string) : Re.match_prefix Re.Empty s = false.
Proof. induction s as [|a s IH]; simpl; auto. Qed.

Lemma match_prefix_seq_empty (s : string) : forall r,
  Re.match_prefix (Re.Seq Re.Empty r) s = false.
Proof. induction s as [|a s IH]; intros r; simpl; auto. Qed.

Lemma match_prefix_seq_eps (s : string) (r : Re.regex) :
  Re.match_prefix (Re.Seq Re.Eps r) s = Re.match_prefix r s.
Proof.
  destruct s as [|a s]; simpl.
  - reflexivity.
  - now rewrite match_prefix_alt, match_prefix_seq_empty.
Qed.

Lemma match_prefix_literal (p : string) : forall s,
  Re.match_prefix (literal p) s = String.prefix (Py.lower p) (Py.lower s).
Proof.
  induction p as [|c p IH]; intros s.
  - destruct s; reflexivity.
  - destruct s as [|a s].
    + reflexivity.
    + change (literal (String c p)) with (Re.Seq (Re.Chr c) (literal p)).
      cbn [Re.match_prefix Re.nullable Re.deriv andb orb Py.lower String.prefix].
      destruct (Ascii.eqb_spec (Py.tolower a) (Py.tolower c)) as [E|E].
      * rewrite match_prefix_seq_eps, IH.
        destruct (ascii_dec (Py.tolower c) (Py.tolower a)); congruence.
      * rewrite match_prefix_seq_empty.
        destruct (ascii_dec (Py.tolower c) (Py.tolower a)); congruence.
Qed.

(** Searching a pattern without special characters is literal,
    case-insensitive containment. *)
Lemma search_literal (p s : string) :
  Re.search (literal p) s = contains_ci p s.
Proof.
  unfold contains_ci.
  induction s as [|a s IH]; cbn [Re.search Py.contains Py.lower].
  - now rewrite match_prefix_literal.
  - now rewrite match_prefix_literal, IH.
Qed.

Lemma str_contains_plain (pat : string) (col : list cell) :
  str_accessor col = true ->
  Re.has_special pat = false ->
  str_contains pat col =
  Done (map (fun c => match c with
                      | Some s => contains_ci pat s
                      | None => false
                      end) col).
Proof.
  intros Hc H. unfold str_contains. rewrite Hc, compile_plain by assumption.
  cbn [negb]. f_equal. apply map_ext. intros [s|]; [apply search_literal | reflexivity].
Qed.

(** ** The matching stage when it runs to its end *)

Lemma record_matches_spec (ref : string) (sel : list (nat * cell * cell)) :
  forall p matches,
    record_matches ref sel p matches
    = (mkProcessor
         (mkStats (processed (stats p)) (matched (stats p) + length sel)
            (not_found (stats p)) (copy_errors (stats p)))
         (set_all_section_files
            (mark_all sel (all_section_files (detailed_results p)))
            (detailed_results p)),
       (matches ++ map (row_match ref) sel)%list).
Proof.
  induction sel as [|[[idx f] t] sel IH]; intros p matches.
  - simpl. rewrite Nat.add_0_r, app_nil_r. destruct p as [[] []]. reflexivity.
  - cbn [record_matches]. rewrite IH. destruct p as [[] []]. cbn.
    rewrite <- app_assoc. repeat f_equal. lia.
Qed.

Lemma selected_none (mask : list bool) : forall idx filenames titles,
  any mask = false -> selected idx mask filenames titles = [].
Proof.
  induction mask as [|b mask IH]; intros idx fs ts H.
  - reflexivity.
  - simpl in H. apply orb_false_iff in H as [-> H].
    destruct fs, ts; simpl; auto.
Qed.

Lemma match_refs_done (filenames titles : list cell) (flat_refs : list string) :
  forall p matches p' matches',
    match_refs filenames titles flat_refs p matches = (p', Done matches') ->
    matches' = (matches ++ records_of filenames titles flat_refs)%list
    /\ p' =
       mkProcessor
         (mkStats
            (processed (stats p) + length flat_refs)
            (matched (stats p) + length (records_of filenames titles flat_refs))
            (not_found (stats p) + length (unmatched_refs titles flat_refs))
            (copy_errors (stats p)))
         (mkDetailed
            (successful_matches (detailed_results p))
            (no_matches_found (detailed_results p)
               ++ map no_match_rec (unmatched_refs titles flat_refs))
            (file_not_found (detailed_results p))
            (copy_error_records (detailed_results p))
            (unused_section_files (detailed_results p))
            (all_flat_refs (detailed_results p))
            (fold_left (fun l ref => mark_all (key_rows filenames titles ref) l)
               flat_refs (all_section_files (detailed_results p)))).
Proof.
  induction flat_refs as [|ref rest IH]; intros p matches p' matches' H.
  - cbn in H. injection H as <- <-. cbn. rewrite !app_nil_r, !Nat.add_0_r.
    destruct p as [[] []]. split; reflexivity.
  - cbn [match_refs] in H.
    destruct (str_contains (target_pattern ref) titles) as [mask| |] eqn:E;
      try discriminate.
    assert (Hrows : key_rows filenames titles ref = selected 0 mask filenames titles)
      by (unfold key_rows; now rewrite E).
    assert (Hkm : key_matches titles ref = any mask)
      by (unfold key_matches; now rewrite E).
    change (records_of filenames titles (ref :: rest))
      with (map (row_match ref) (key_rows filenames titles ref)
              ++ records_of filenames titles rest)%list.
    unfold unmatched_refs. cbn [filter fold_left length]. rewrite Hkm, Hrows.
    fold (unmatched_refs titles rest).
    destruct (any mask) eqn:Eany; cbn [negb].
    + rewrite record_matches_spec in H. apply IH in H. destruct H as [-> ->].
      rewrite <- app_assoc. split; [reflexivity|].
      cbn. rewrite length_app, length_map.
      f_equal; try reflexivity; f_equal; lia.
    + apply IH in H. destruct H as [-> ->].
      rewrite (selected_none mask 0 filenames titles Eany).
      split; [reflexivity|].
      destruct p as [[] []]. cbn. rewrite <- app_assoc.
      f_equal; try reflexivity; f_equal; lia.
Qed.

Lemma catalog_columns (entries : list (cell * cell)) :
  iloc_col (catalog entries) 1 = Some (map snd entries)
  /\ iloc_col (catalog entries) 0 = Some (map fst entries).
Proof.
  unfold iloc_col, catalog. cbn [ncols rows Nat.ltb Nat.leb]. rewrite !map_map.
  split; apply f_equal; apply map_ext; intros [f t]; reflexivity.
Qed.

Lemma find_matching_sections_body_done (entries : list (cell * cell))
    (flat_refs : list string) (p : Processor) (matches : list MatchInfo) :
  find_matching_sections_body (catalog entries) flat_refs init = (p, Done matches) ->
  let filenames := map fst entries in
  let titles := map snd entries in
  matches = records_of filenames titles flat_refs
  /\ stats p
     = mkStats (length flat_refs) (length matches)
         (length (filter (fun ref => negb (key_matches titles ref)) flat_refs)) 0
  /\ all_section_files (detailed_results p)
     = fold_left (fun l ref => mark_all (key_rows filenames titles ref) l) flat_refs
         (section_files_of (selected 0 (map holds_sections titles) filenames titles))
  /\ unused_section_files (detailed_results p)
     = unused_of (all_section_files (detailed_results p)).
Proof.
  intros H filenames titles. unfold find_matching_sections_body in H.
  destruct (catalog_columns entries) as [E1 E0]. rewrite E1, E0 in H.
  fold filenames titles in H.
  destruct (str_accessor titles) eqn:Eacc;
    [|unfold str_contains in H; rewrite Eacc in H; discriminate].
  rewrite str_contains_plain in H by (exact Eacc || reflexivity).
  fold holds_sections in H.
  match type of H with
  | context [match_refs ?f ?t ?k ?q ?ms] =>
      destruct (match_refs f t k q ms) as [p3 [ms'| |]] eqn:E
  end; try discriminate.
  injection H as <- <-.
  apply match_refs_done in E. destruct E as [-> ->]. cbn. repeat split.
Qed.

(** X6.  When the matching stage runs to its end, [processed] is the number
    of keys, [not_found] the number of keys without a matching row, the two
    kinds of keys add up to [processed], and [matched] is the number of
    matches returned. *)
Lemma counters_when_matching_completes (entries : list (cell * cell))
    (flat_refs : list string) (p : Processor) (matches : list MatchInfo) :
  find_matching_sections_body (catalog entries) flat_refs init = (p, Done matches) ->
  let titles := map snd entries in
  processed (stats p) = length flat_refs
  /\ not_found (stats p) = length (unmatched_refs titles flat_refs)
  /\ processed (stats p)
     = not_found (stats p) + length (filter (key_matches titles) flat_refs)
  /\ matched (stats p) = length matches.
Proof.
  intros H titles. apply find_matching_sections_body_done in H.
  destruct H as (Hm & Hs & _). rewrite Hs. cbn. fold titles.
  repeat split. unfold unmatched_refs.
  rewrite <- (filter_length (key_matches titles) flat_refs). lia.
Qed.

Lemma selected_true (g : cell -> bool) (titles : list cell) :
  forall idx filenames i f t,
    In (i, f, t) (selected idx (map g titles) filenames titles) -> g t = true.
Proof.
  induction titles as [|t0 titles IH]; intros idx filenames i f t H.
  - destruct filenames; contradiction.
  - destruct filenames as [|f0 filenames]; [contradiction|].
    cbn [map selected] in H. apply in_app_or in H as [H|H].
    + destruct (g t0) eqn:E; [|contradiction].
      destruct H as [H|[]]. now injection H as _ _ <-.
    + eapply IH, H.
Qed.

Lemma selected_complete (g : cell -> bool) (entries : list (cell * cell))
    (f t : cell) :
  In (f, t) entries -> g t = true ->
  forall idx, exists i,
    In (i, f, t)
       (selected idx (map g (map snd entries)) (map fst entries) (map snd entries)).
Proof.
  induction entries as [|[f0 t0] entries IH]; intros Hin Hg idx.
  - contradiction.
  - cbn [map fst snd selected]. destruct Hin as [Hin|Hin].
    + injection Hin as -> ->. rewrite Hg. exists idx. now left.
    + destruct (IH Hin Hg (S idx)) as [i Hi]. exists i.
      apply in_or_app. now right.
Qed.

Lemma key_rows_compiled (filenames titles : list cell) (ref : string) (r : Re.regex) :
  str_accessor titles = true ->
  Re.compile (target_pattern ref) = Re.Compiled r ->
  key_rows filenames titles ref
  = selected 0 (map (found_by r) titles) filenames titles.
Proof. intros Ha E. unfold key_rows, str_contains. now rewrite Ha, E. Qed.

Lemma mark_matched_keeps (sf : SectionFile) (f t : cell) (l : list SectionFile) :
  cell_eqb (sf_title sf) t = false -> In sf l -> In sf (mark_matched f t l).
Proof.
  intros Ht. induction l as [|x l IH]; intros Hin; [contradiction|].
  cbn [mark_matched]. destruct Hin as [->|Hin].
  - rewrite Ht, andb_false_r. now left.
  - destruct (cell_eqb (sf_filename x) f && cell_eqb (sf_title x) t);
      right; auto.
Qed.

Lemma mark_all_keeps (sf : SectionFile) (sel : list (nat * cell * cell)) :
  (forall i f t, In (i, f, t) sel -> cell_eqb (sf_title sf) t = false) ->
  forall l, In sf l -> In sf (mark_all sel l).
Proof.
  unfold mark_all. induction sel as [|[[i f] t] sel IH]; intros H l Hin.
  - exact Hin.
  - cbn [fold_left]. apply IH.
    + intros i' f' t' H'. eapply H. right. exact H'.
    + eapply mark_matched_keeps; [|exact Hin]. eapply H. left. reflexivity.
Qed.

Lemma cell_eqb_true (a b : cell) : cell_eqb a b = true -> a = b.
Proof.
  destruct a, b; try discriminate. cbn. intros H.
  apply String.eqb_eq in H. now subst.
Qed.

(** X7.  When the matching stage runs to its end, every catalog entry whose
    title holds "Sections" and which no key's pattern finds is listed as
    unused. *)
Lemma unused_when_matching_completes (entries : list (cell * cell))
    (flat_refs : list string) (p : Processor) (matches : list MatchInfo)
    (f : cell) (s : string) :
  find_matching_sections_body (catalog entries) flat_refs init = (p, Done matches) ->
  In (f, Some s) entries ->
  contains_ci "Sections" s = true ->
  (forall ref r, In ref flat_refs ->
     Re.compile (target_pattern ref) = Re.Compiled r -> Re.search r s = false) ->
  In (mkSectionFile f (Some s) false) (unused_section_files (detailed_results p)).
Proof.
  intros H Hin Hs Hkeys. apply find_matching_sections_body_done in H.
  destruct H as (_ & _ & Hall & ->). rewrite Hall. clear Hall. unfold unused_of.
  apply filter_In. split; [|reflexivity].
  set (filenames := map fst entries). set (titles := map snd entries).
  assert (H0 : In (mkSectionFile f (Some s) false)
                 (section_files_of
                    (selected 0 (map holds_sections titles) filenames titles))).
  { destruct (selected_complete holds_sections entries f (Some s) Hin Hs 0)
      as [i Hi].
    unfold section_files_of. apply in_map_iff. exists (i, f, Some s).
    split; [reflexivity | exact Hi]. }
  revert H0. generalize (section_files_of
    (selected 0 (map holds_sections titles) filenames titles)).
  induction flat_refs as [|ref rest IH]; intros l Hl; [exact Hl|].
  cbn [fold_left]. apply IH.
  - intros ref' r' Hr'. apply Hkeys. now right.
  - apply mark_all_keeps; [|exact Hl]. intros i f' t' Hsel. cbn [sf_title].
    unfold key_rows, str_contains in Hsel.
    destruct (str_accessor titles); cbn [negb] in Hsel; [|contradiction].
    destruct (Re.compile (target_pattern ref)) as [r| |] eqn:E;
      try contradiction.
    apply (selected_true (found_by r)) in Hsel.
    destruct (cell_eqb (Some s) t') eqn:Eq; [|reflexivity].
    apply cell_eqb_true in Eq. subst t'. cbn in Hsel.
    rewrite (Hkeys ref r (or_introl eq_refl) E) in Hsel. discriminate.
Qed.

Lemma str_accessor_member (col : list cell) (s : string) :
  In (Some s) col -> str_accessor col = true.
Proof.
  intros H. destruct col as [|c col]; [reflexivity|].
  unfold str_accessor. apply existsb_exists. now exists (Some s).
Qed.

Lemma prefix_refl (x : string) : String.prefix x x = true.
Proof.
  induction x as [|c x IH]; [reflexivity|].
  cbn. destruct (ascii_dec c c); [exact IH | congruence].
Qed.

Lemma contains_refl (x : string) : Py.contains x x = true.
Proof. destruct x; cbn [Py.contains]; now rewrite prefix_refl. Qed.

Lemma has_special_target (ref : string) :
  Re.has_special (target_pattern ref) = Re.has_special ref.
Proof. reflexivity. Qed.

(** On a key without special characters the rows selected are those whose
    title holds the pattern, letter case apart. *)
Lemma key_rows_plain (filenames titles : list cell) (ref : string) :
  str_accessor titles = true ->
  Re.has_special ref = false ->
  key_rows filenames titles ref
  = selected 0
      (map (fun c => match c with
                     | Some s => contains_ci (target_pattern ref) s
                     | None => false
                     end) titles)
      filenames titles.
Proof.
  intros Ha H. unfold key_rows.
  rewrite str_contains_plain by (exact Ha || now rewrite has_special_target).
  reflexivity.
Qed.

(** X8.  When the matching stage runs to its end, a key without special
    characters is matched with every entry whose title is "Sections - "
    followed by the key, in any letter case. *)
Lemma exact_title_matched_when_matching_completes (entries : list (cell * cell))
    (flat_refs : list string) (p : Processor) (matches : list MatchInfo)
    (ref : string) (f : cell) (t : string) :
  find_matching_sections_body (catalog entries) flat_refs init = (p, Done matches) ->
  In ref flat_refs ->
  Re.has_special ref = false ->
  In (f, Some t) entries ->
  Py.lower t = Py.lower (target_pattern ref) ->
  exists i, In (mkMatchInfo ref (Some t) f i) matches.
Proof.
  intros H Hin Hplain Hentry Hcase. apply find_matching_sections_body_done in H.
  destruct H as (-> & _).
  set (g := fun c : cell => match c with
                            | Some s => contains_ci (target_pattern ref) s
                            | None => false
                            end).
  assert (Hg : g (Some t) = true).
  { cbn. unfold contains_ci. rewrite Hcase. apply contains_refl. }
  destruct (selected_complete g entries f (Some t) Hentry Hg 0) as [i Hi].
  exists i. unfold records_of. apply in_flat_map. exists ref. split; [exact Hin|].
  rewrite key_rows_plain;
    [|apply (str_accessor_member (map snd entries) t), in_map_iff;
      now exists (f, Some t) | assumption].
  apply in_map_iff. exists (i, f, Some t). split; [reflexivity | exact Hi].
Qed.

Lemma match_refs_completes (filenames titles : list cell) (flat_refs : list string) :
  str_accessor titles = true ->
  Forall (fun ref => exists r, Re.compile (target_pattern ref) = Re.Compiled r)
    flat_refs ->
  forall p matches, exists p' matches',
    match_refs filenames titles flat_refs p matches = (p', Done matches').
Proof.
  intros Ha.
  induction 1 as [|ref rest [r Hr] _ IH]; intros p matches; cbn [match_refs].
  - now exists p, matches.
  - unfold str_contains. rewrite Ha, Hr. cbn [negb].
    destruct (any _).
    + destruct (record_matches _ _ _ _) as [p2 matches2]. apply IH.
    + apply IH.
Qed.

(** The matching stage runs to its end when every key's pattern compiles,
    and so when no key holds a special character. *)
Lemma matching_completes (entries : list (cell * cell)) (flat_refs : list string) :
  str_accessor (map snd entries) = true ->
  Forall (fun ref => exists r, Re.compile (target_pattern ref) = Re.Compiled r)
    flat_refs ->
  exists p matches,
    find_matching_sections_body (catalog entries) flat_refs init = (p, Done matches).
Proof.
  intros Ha H. unfold find_matching_sections_body.
  destruct (catalog_columns entries) as [E1 E0]. rewrite E1, E0.
  rewrite str_contains_plain by (exact Ha || reflexivity).
  match goal with
  | |- context [match_refs ?f ?t ?k ?q ?ms] =>
      destruct (match_refs_completes f t k Ha H q ms) as (p3 & ms' & ->)
  end.
  eexists. eexists. reflexivity.
Qed.

Lemma plain_key_compiles (ref : string) :
  Re.has_special ref = false ->
  exists r, Re.compile (target_pattern ref) = Re.Compiled r.
Proof.
  intros H. eexists. apply compile_plain. now rewrite has_special_target.
Qed.

(** ** The matcher reads a key as a regular expression *)

(** C1.  The code does not match keys literally.  With the key "HT A (1)"
    the title "Sections - HT A (1)" holds the pattern "Sections - HT A (1)"
    as a substring, yet the matcher selects nothing and counts the key as not
    found: the parentheses are read as a group.  With the key "HT A.B2P" the
    title "Sections - HT A1B2P" does not hold the pattern, yet the entry is
    selected: the dot is read as any character. *)
Theorem C1_special_characters_read_as_syntax :
  contains_ci (target_pattern "HT A (1)") "Sections - HT A (1)" = true
  /\ find_matching_sections
       (catalog [(Some "F1.pdf", Some "Sections - HT A (1)")]) ["HT A (1)"] init
     = (mkProcessor (mkStats 1 0 1 0)
          (mkDetailed [] [mkNoMatchRec "HT A (1)"
                            "No matching section found in architect spreadsheet"]
             [] []
             [mkSectionFile (Some "F1.pdf") (Some "Sections - HT A (1)") false]
             ["HT A (1)"]
             [mkSectionFile (Some "F1.pdf") (Some "Sections - HT A (1)") false]),
        Some [])
  /\ contains_ci (target_pattern "HT A.B2P") "Sections - HT A1B2P" = false
  /\ snd (find_matching_sections
            (catalog [(Some "F7.pdf", Some "Sections - HT A1B2P")]) ["HT A.B2P"] init)
     = Some [mkMatchInfo "HT A.B2P" (Some "Sections - HT A1B2P") (Some "F7.pdf") 0].
Proof. vm_compute. repeat split. Qed.

(** C2.  A catalog entry whose title is exactly "Sections - " followed by the
    key is not always matched.  For the key "HT C (2B)" and the title
    "Sections - HT C (2B)" the matcher returns no match; for the key
    "Block 2 (" and the title "Sections - Block 2 (" the pattern does not
    compile, the error is caught and the matcher returns the empty list. *)
Theorem C2_exact_title_not_matched :
  snd (find_matching_sections
         (catalog [(Some "F2.pdf", Some "Sections - HT C (2B)")]) ["HT C (2B)"] init)
  = Some []
  /\ Re.compile (target_pattern "Block 2 (") = Re.ReError
  /\ snd (find_matching_sections
            (catalog [(Some "F3.pdf", Some "Sections - Block 2 (")]) ["Block 2 ("] init)
     = Some [].
Proof. vm_compute. repeat split. Qed.

(** C6.  With the key "HT A (" the pattern does not compile; the error is
    caught after the section files were listed and before the unused ones are
    collected.  The entry titled "Sections - HT B 2B3P" holds "Sections", is
    selected by no key, and is absent from [unused_section_files]. *)
Theorem C6_unused_entries_lost_on_bad_pattern :
  let p := fst (find_matching_sections
                  (catalog [(Some "F1.pdf", Some "Sections - HT B 2B3P")])
                  ["HT A ("] init) in
  contains_ci "Sections" "Sections - HT B 2B3P" = true
  /\ contains_ci (target_pattern "HT A (") "Sections - HT B 2B3P" = false
  /\ all_section_files (detailed_results p)
     = [mkSectionFile (Some "F1.pdf") (Some "Sections - HT B 2B3P") false]
  /\ unused_section_files (detailed_results p) = [].
Proof. vm_compute. repeat split. Qed.

(** C10.  With the keys "HT B 2B3P", "HT A (" and "HT C" the loop stops at
    the second key, whose pattern does not compile: [processed] is 2 for three
    keys, [matched] is 2 while the matcher returns no match, and [not_found]
    is 0 although "HT C" matches no entry. *)
Theorem C10_counters_after_bad_pattern :
  let r := find_matching_sections
             (catalog [(Some "F1.pdf", Some "Sections - HT B 2B3P");
                       (Some "F2.pdf", None);
                       (Some "F3.pdf", Some "sections - ht b 2b3p rev A")])
             ["HT B 2B3P"; "HT A ("; "HT C"] init in
  stats (fst r) = mkStats 2 2 0 0 /\ snd r = Some [].
Proof. vm_compute. repeat split. Qed.

(** ** The reference extractor *)

Lemma rstrip_idem (s : string) : Py.rstrip (Py.rstrip s) = Py.rstrip s.
Proof.
  induction s as [|c s IH]; [reflexivity|].
  cbn [Py.rstrip]. destruct (Py.rstrip s) as [|a r] eqn:E.
  - destruct (Py.isspace c) eqn:Ec; [reflexivity|].
    cbn [Py.rstrip]. now rewrite Ec.
  - cbn [Py.rstrip] in IH |- *. rewrite IH. reflexivity.
Qed.

Lemma lstrip_head (s : string) :
  Py.lstrip s = "" \/ exists c t, Py.lstrip s = String c t /\ Py.isspace c = false.
Proof.
  induction s as [|c s IH]; [now left|].
  cbn [Py.lstrip]. destruct (Py.isspace c) eqn:E; [exact IH|].
  right. now exists c, s.
Qed.

Lemma rstrip_head (c : ascii) (t : string) :
  Py.isspace c = false -> exists u, Py.rstrip (String c t) = String c u.
Proof.
  intros E. cbn [Py.rstrip]. destruct (Py.rstrip t).
  - rewrite E. now exists "".
  - eexists. reflexivity.
Qed.

(** Trimming a trimmed string changes nothing. *)
Lemma strip_idem (s : string) : Py.strip (Py.strip s) = Py.strip s.
Proof.
  unfold Py.strip. destruct (lstrip_head s) as [->|(c & t & -> & Hc)].
  - reflexivity.
  - destruct (rstrip_head c t Hc) as [u Hu].
    assert (Hl : Py.lstrip (Py.rstrip (String c t)) = Py.rstrip (String c t)).
    { rewrite Hu. cbn [Py.lstrip]. now rewrite Hc. }
    rewrite Hl. apply rstrip_idem.
Qed.

Lemma collect_refs_in (raw : list string) (key : string) :
  In key (collect_refs raw) <->
  exists ref, In ref raw /\ key = Py.strip ref /\ kept key = true.
Proof.
  induction raw as [|x raw IH]; cbn [collect_refs].
  - split; [contradiction | now intros (? & [] & _)].
  - fold (kept (Py.strip x)). destruct (kept (Py.strip x)) eqn:E.
    + split.
      * intros [<-|H]; [exists x; repeat split; auto; now left|].
        apply IH in H as (ref & ? & ? & ?). exists ref. repeat split; auto.
        now right.
      * intros (ref & [->|H] & -> & Hk); [now left|].
        right. apply IH. now exists ref.
    + split.
      * intros H. apply IH in H as (ref & ? & ? & ?). exists ref.
        repeat split; auto. now right.
      * intros (ref & [->|H] & -> & Hk); [congruence|].
        apply IH. now exists ref.
Qed.

Lemma mem_in (x : string) (l : list string) : mem x l = true <-> In x l.
Proof.
  unfold mem. rewrite existsb_exists. split.
  - intros (y & Hy & E). apply String.eqb_eq in E. now subst.
  - intros H. exists x. split; [exact H | apply String.eqb_refl].
Qed.

Lemma unique_from_spec (l : list string) : forall seen,
  NoDup (unique_from seen l)
  /\ forall x, In x (unique_from seen l) -> In x l /\ ~ In x seen.
Proof.
  induction l as [|y l IH]; intros seen; cbn [unique_from].
  - split; [constructor | contradiction].
  - destruct (mem y seen) eqn:E.
    + destruct (IH seen) as [Hnd Hin]. split; [exact Hnd|].
      intros x Hx. destruct (Hin x Hx). split; [now right | assumption].
    + destruct (IH (y :: seen)) as [Hnd Hin]. split.
      * constructor; [|exact Hnd]. intros Hy. destruct (Hin y Hy) as [_ Hn].
        apply Hn. now left.
      * intros x [<-|Hx].
        -- split; [now left|]. intros Hs. apply mem_in in Hs. congruence.
        -- destruct (Hin x Hx) as [H1 H2]. split; [now right|].
           intros Hs. apply H2. now right.
Qed.

Lemma collect_refs_trimmed_input (raw : list string) :
  Forall (fun ref => Py.strip ref = ref) raw ->
  collect_refs raw = filter kept raw.
Proof.
  induction 1 as [|x raw Hx _ IH]; cbn [collect_refs filter].
  - reflexivity.
  - fold (kept (Py.strip x)). rewrite Hx, IH. reflexivity.
Qed.

(** The list returned has no duplicates when no cell of column D carries
    leading or trailing whitespace. *)
Lemma get_flat_references_nodup (column_d : list cell) :
  Forall (fun ref => Py.strip ref = ref) (dropna column_d) ->
  NoDup (get_flat_references (schedule column_d)).
Proof.
  intros H. unfold get_flat_references, iloc_col, schedule.
  cbn [ncols rows Nat.ltb Nat.leb]. rewrite map_map. cbn [nth]. rewrite map_id.
  destruct (unique_from_spec (dropna column_d) []) as [Hnd Hin].
  rewrite collect_refs_trimmed_input.
  - apply NoDup_filter. exact Hnd.
  - apply Forall_forall. intros x Hx. rewrite Forall_forall in H.
    apply H. now apply Hin.
Qed.

(** Every key returned is the trimmed text of a cell of column D, is itself
    trimmed, is not empty, is not the header label and does not start with "Flat". *)
Lemma get_flat_references_keys (column_d : list cell) (key : string) :
  In key (get_flat_references (schedule column_d)) ->
  (exists ref, In (Some ref) column_d /\ key = Py.strip ref)
  /\ Py.strip key = key
  /\ key <> "" /\ key <> "Flat / House Ref" /\ Py.startswith "Flat" key = false.
Proof.
  unfold get_flat_references, iloc_col, schedule.
  cbn [ncols rows Nat.ltb Nat.leb]. rewrite map_map. cbn [nth]. rewrite map_id.
  intros H. apply collect_refs_in in H as (ref & Hin & -> & Hk).
  destruct (unique_from_spec (dropna column_d) []) as [_ Hu].
  apply Hu in Hin as [Hin _].
  split.
  - exists ref. split; [|reflexivity].
    clear -Hin. induction column_d as [|[s|] l IH]; cbn in *; intuition congruence.
  - split; [apply strip_idem|].
    unfold kept in Hk. apply andb_true_iff in Hk as [Hk H3].
    apply andb_true_iff in Hk as [H1 H2].
    apply negb_true_iff in H1, H2, H3. apply String.eqb_neq in H1, H2.
    auto.
Qed.

(** C3.  The extractor drops duplicates before it trims: two cells that
    differ only by a trailing space both survive [unique()] and trim to the
    same key, which the returned list then holds twice. *)
Theorem C3_duplicate_after_trimming :
  get_flat_references (schedule [Some "HT A 1B2P"; Some "HT A 1B2P "])
  = ["HT A 1B2P"; "HT A 1B2P"]
  /\ ~ NoDup (get_flat_references (schedule [Some "HT A 1B2P"; Some "HT A 1B2P "])).
Proof.
  split.
  - vm_compute. reflexivity.
  - intros H. vm_compute in H. inversion H as [|x l Hin _]; subst.
    apply Hin. left. reflexivity.
Qed.

(** ** The derived file name *)

Lemma rsplit_dot_none (b : string) :
  Py.has_dot b = false -> Py.rsplit_dot b = None.
Proof.
  induction b as [|c b IH]; simpl; intros H.
  - reflexivity.
  - apply orb_false_iff in H as [Hc Hb]. now rewrite IH, Hc.
Qed.

Lemma rsplit_dot_last (a b : string) :
  Py.has_dot b = false -> Py.rsplit_dot (a ++ String "." b) = Some (a, b).
Proof.
  intros H. induction a as [|c a IH]; simpl.
  - now rewrite rsplit_dot_none.
  - now rewrite IH.
Qed.

(** C7 (amended).  The derived name is "sections_", the key without its
    space characters, "_", and the source name split at its last dot: for a
    source name [a.b] with no dot in [b] it is [a] followed by [.b], for a
    source name [b] without a dot it is [b] followed by ".pdf".  The key
    "HT A 3B4P" with the source "ARC-101.pdf" gives
    "sections_HTA3B4P_ARC-101.pdf". *)
Theorem C7_generate_new_filename (key a b : string) :
  Py.has_dot b = false ->
  generate_new_filename (a ++ String "." b) key "sections"
    = "sections_" ++ Py.remove_spaces key ++ "_" ++ a ++ String "." b
  /\ generate_new_filename b key "sections"
    = "sections_" ++ Py.remove_spaces key ++ "_" ++ b ++ ".pdf"
  /\ Py.remove_spaces "HT A 3B4P" = "HTA3B4P"
  /\ generate_new_filename "ARC-101.pdf" "HT A 3B4P" "sections"
    = "sections_HTA3B4P_ARC-101.pdf".
Proof.
  intros H. unfold generate_new_filename.
  rewrite rsplit_dot_last, rsplit_dot_none by assumption.
  repeat split.
Qed.

Lemma C7_generate_new_filename_witness :
  Py.has_dot "pdf" = false
  /\ generate_new_filename "A.101.pdf" "HT B" "sections" = "sections_HTB_A.101.pdf"
  /\ generate_new_filename "pdf" "HT B" "sections" = "sections_HTB_pdf.pdf".
Proof.
  split; [reflexivity|].
  destruct (C7_generate_new_filename "HT B" "A.101" "pdf" eq_refl) as (H1 & H2 & _).
  split; [exact H1 | exact H2].
Defined.

(** C7, as stated, fails: only the space character is removed from the key.
    A key holding a tab keeps it in the derived name. *)
Lemma C7_tab_is_kept :
  let key := "HT" ++ String "009" "A" in
  generate_new_filename "ARC-101.pdf" key "sections"
    = "sections_HT" ++ String "009" "A_ARC-101.pdf"
  /\ generate_new_filename "ARC-101.pdf" key "sections"
    <> "sections_" ++ remove_whitespace key ++ "_" ++ "ARC-101" ++ ".pdf".
Proof. split; [reflexivity | vm_compute; discriminate]. Qed.

(** ** The source file looked up *)

Lemma lower_app (a b : string) : Py.lower (a ++ b) = Py.lower a ++ Py.lower b.
Proof. induction a as [|c a IH]; simpl; [reflexivity | now rewrite IH]. Qed.

Lemma endswith_refl (s : string) : Py.endswith s s = true.
Proof. destruct s; simpl; now rewrite ?String.eqb_refl, ?Ascii.eqb_refl. Qed.

Lemma endswith_app (a suf : string) : Py.endswith suf (a ++ suf) = true.
Proof.
  induction a as [|c a IH].
  - apply endswith_refl.
  - change (String c a ++ suf) with (String c (a ++ suf)).
    cbn [Py.endswith]. rewrite IH. apply orb_true_r.
Qed.

Lemma with_ext_ends_in_pdf (name : string) :
  Py.endswith ".pdf" (Py.lower (source_filename_with_ext name)) = true.
Proof.
  unfold source_filename_with_ext.
  destruct (Py.endswith ".pdf" (Py.lower name)) eqn:E; simpl.
  - exact E.
  - rewrite lower_app. apply (endswith_app (Py.lower name) ".pdf").
Qed.

Section FileSystemFacts.

Variable FS : Type.
Variable joinpath : string -> string -> string.
Variable fs_exists : FS -> string -> bool.
Variable fs_mkdir : FS -> string -> FS * option string.
Variable fs_copy2 : FS -> string -> string -> FS * option string.

Local Abbreviation copy_file' := (copy_file FS joinpath fs_exists fs_copy2).
Local Abbreviation process_match' :=
  (process_match FS joinpath fs_exists fs_mkdir fs_copy2).
Local Abbreviation process_matches' :=
  (process_matches FS joinpath fs_exists fs_mkdir fs_copy2).
Local Abbreviation process_files' :=
  (process_files FS joinpath fs_exists fs_mkdir fs_copy2).

(** C8 (amended).  The name looked up is the stored name when it already
    ends in ".pdf" in any letter case, and the stored name followed by ".pdf"
    otherwise; in both cases it ends in ".pdf" up to letter case.  The only
    path [copy_file] asks the file system about, and the only source it
    copies, is the architect directory joined with that name. *)
Theorem C8_source_file_resolution (name dest : string) (m : MatchInfo)
    (p : Processor) (w : World FS) :
  let src := joinpath (architect_path joinpath) (source_filename_with_ext name) in
  Py.endswith ".pdf" (Py.lower (source_filename_with_ext name)) = true
  /\ source_filename_with_ext name
     = (if Py.endswith ".pdf" (Py.lower name) then name else name ++ ".pdf")
  /\ exists tail,
       calls (snd (fst (copy_file' (Some name) dest m p w)))
       = (calls w ++ Exists src :: tail)%list
       /\ (tail = [] \/ exists dst, tail = [Copy2 src dst]).
Proof.
  intros src. split; [apply with_ext_ends_in_pdf|]. split.
  - unfold source_filename_with_ext.
    now destruct (Py.endswith ".pdf" (Py.lower name)).
  - unfold copy_file. fold src.
    destruct (fs_exists (disk w) src); simpl.
    + destruct (fs_copy2 (disk w) src _) as [d [e|]] eqn:E; simpl;
        rewrite <- app_assoc; simpl; eexists; split; try reflexivity;
        right; eexists; reflexivity.
    + exists []. split; [reflexivity | now left].
Qed.



Lemma match_refs_modelled (filenames titles : list cell) (flat_refs : list string) :
  Forall modelled flat_refs ->
  forall p matches,
    snd (match_refs filenames titles flat_refs p matches) <> Beyond.
Proof.
  induction 1 as [|ref rest Href _ IH]; intros p matches; cbn [match_refs].
  - discriminate.
  - unfold str_contains.
    destruct (negb (str_accessor titles)); [discriminate|].
    destruct (Re.compile (target_pattern ref)) as [r| |] eqn:E.
    + destruct (any _).
      * destruct (record_matches _ _ _ _) as [p2 matches2]. apply IH.
      * apply IH.
    + discriminate.
    + now elim Href.
Qed.

Lemma find_matching_sections_modelled (architect_df : DataFrame)
    (flat_refs : list string) (p : Processor) :
  Forall modelled flat_refs ->
  snd (find_matching_sections architect_df flat_refs p) <> None.
Proof.
  intros H. unfold find_matching_sections, find_matching_sections_body.
  destruct (iloc_col architect_df 1) as [titles|]; [|discriminate].
  destruct (iloc_col architect_df 0) as [filenames|]; [|discriminate].
  destruct (str_accessor titles) eqn:Eacc;
    [|unfold str_contains; rewrite Eacc; discriminate].
  rewrite str_contains_plain by (exact Eacc || reflexivity).
  match goal with
  | |- context [match_refs ?f ?t ?k ?q ?ms] =>
      pose proof (match_refs_modelled f t k H q ms) as Hm;
      destruct (match_refs f t k q ms) as [p3 [ms'| |]]
  end; simpl in *; congruence.
Qed.


End FileSystemFacts.

(** The two ways a run stops before matching: [load_spreadsheets] failed, or
    no key was extracted.  Both return [False] and leave everything as it
    was. *)
Lemma process_files_aborts (FS : Type) (joinpath : string -> string -> string)
    (fs_exists : FS -> string -> bool)
    (fs_mkdir : FS -> string -> FS * option string)
    (fs_copy2 : FS -> string -> string -> FS * option string)
    (accommodation_df architect_df : DataFrame) (w : World FS) :
  process_files FS joinpath fs_exists fs_mkdir fs_copy2 None w
  = Some (mkRun FS false init w [])
  /\ (get_flat_references accommodation_df = [] ->
      process_files FS joinpath fs_exists fs_mkdir fs_copy2
        (Some (accommodation_df, architect_df)) w
      = Some (mkRun FS false init w [])).
Proof.
  split; [reflexivity|]. intros H. unfold process_files. now rewrite H.
Qed.

(** ** Runs on the small disk *)





(** C8, as stated, fails: a stored name ending in ".PDF" is looked up as it
    is, and the path asked for does not end in ".pdf". *)
Lemma C8_upper_case_suffix_looked_up :
  let m := mkMatchInfo "HT A 1B2P" (Some "Sections - HT A 1B2P") (Some "ARC-101.PDF") 0 in
  let w := mkWorld (mkSimpleFS [] false) [] in
  let path := "C:\Users\IS19\Documents\as_built_extraction\architect\ARC-101.PDF" in
  calls (snd (fst (copy_file SimpleFS simple_join simple_exists simple_copy2
                     (Some "ARC-101.PDF") "out" m init w)))
  = [Exists path]
  /\ Py.endswith ".pdf" path = false.
Proof. vm_compute. split; reflexivity. Qed.


(** * Further properties of the code *)

(** ** [get_flat_references]: which keys come out, and in which order *)

Lemma unique_from_complete (l : list string) : forall seen x,
  In x l -> In x (unique_from seen l) \/ In x seen.
Proof.
  induction l as [|y l IH]; intros seen x Hin; [contradiction|].
  cbn [unique_from]. destruct (mem y seen) eqn:E.
  - destruct Hin as [<-|Hin]; [right; now apply mem_in | now apply IH].
  - destruct Hin as [<-|Hin]; [left; now left|].
    destruct (IH (y :: seen) x Hin) as [H|[<-|H]].
    + left. now right.
    + left. now left.
    + now right.
Qed.

Lemma dropna_in (col : list cell) (s : string) :
  In s (dropna col) <-> In (Some s) col.
Proof.
  induction col as [|[t|] col IH]; cbn; [tauto| |].
  - rewrite IH. split; intros [H|H]; auto; left; congruence.
  - rewrite IH. split; [auto | intros [H|H]; [discriminate | auto]].
Qed.

(** X1.  A key is returned exactly when some cell of column D trims to it
    and it is neither empty, nor the header label, nor a text starting with
    "Flat". *)
Theorem get_flat_references_membership (accommodation_df : DataFrame)
    (col : list cell) (key : string) :
  iloc_col accommodation_df 3 = Some col ->
  (In key (get_flat_references accommodation_df) <->
   exists ref,
     In (Some ref) col /\ key = Py.strip ref
     /\ key <> "" /\ key <> "Flat / House Ref"
     /\ Py.startswith "Flat" key = false).
Proof.
  intros Hcol. unfold get_flat_references. rewrite Hcol.
  rewrite collect_refs_in.
  assert (Hk : kept key = true <->
               key <> "" /\ key <> "Flat / House Ref"
               /\ Py.startswith "Flat" key = false).
  { unfold kept. rewrite !andb_true_iff, !negb_true_iff, !String.eqb_neq. tauto. }
  split.
  - intros (ref & Hin & -> & Hkept). exists ref.
    destruct (unique_from_spec (dropna col) []) as [_ Hu].
    apply Hu in Hin as [Hin _]. apply dropna_in in Hin. tauto.
  - intros (ref & Hin & -> & Hrest). exists ref.
    apply dropna_in in Hin.
    destruct (unique_from_complete (dropna col) [] ref Hin) as [H|[]].
    split; [exact H|]. split; [reflexivity | now apply Hk].
Qed.

Lemma get_flat_references_membership_witness :
  In "HT A 1B2P"
    (get_flat_references
       (schedule [Some "Flat / House Ref"; None; Some "  HT A 1B2P "; Some " "]))
  <->
  exists ref,
    In (Some ref) [Some "Flat / House Ref"; None; Some "  HT A 1B2P "; Some " "]
    /\ "HT A 1B2P" = Py.strip ref
    /\ "HT A 1B2P" <> "" /\ "HT A 1B2P" <> "Flat / House Ref"
    /\ Py.startswith "Flat" "HT A 1B2P" = false.
Proof.
  apply (get_flat_references_membership
           (schedule [Some "Flat / House Ref"; None; Some "  HT A 1B2P "; Some " "])).
  reflexivity.
Defined.

(** X2.  Every key returned is trimmed, not empty, and does not start with
    "Flat", whatever the frame; a frame without a column D gives no key. *)
Theorem get_flat_references_trimmed (accommodation_df : DataFrame) :
  Forall (fun key => Py.strip key = key /\ key <> ""
                     /\ Py.startswith "Flat" key = false)
    (get_flat_references accommodation_df)
  /\ (ncols accommodation_df <= 3 -> get_flat_references accommodation_df = []).
Proof.
  unfold get_flat_references, iloc_col. split.
  - destruct (3 <? ncols accommodation_df); [|constructor].
    apply Forall_forall. intros key H.
    apply collect_refs_in in H as (ref & _ & -> & Hk).
    split; [apply strip_idem|].
    unfold kept in Hk. rewrite !andb_true_iff, !negb_true_iff in Hk.
    destruct Hk as [[H1 _] H3]. apply String.eqb_neq in H1. auto.
  - intros H. apply Nat.ltb_ge in H. now rewrite H.
Qed.

Lemma get_flat_references_trimmed_witness :
  get_flat_references (mkDataFrame 3 [[Some "a"; Some "b"; Some "HT A 1B2P"]]) = [].
Proof.
  apply (get_flat_references_trimmed
           (mkDataFrame 3 [[Some "a"; Some "b"; Some "HT A 1B2P"]])).
  cbn. lia.
Defined.



Ltac subseq_step :=
  first [apply subseq_keep | apply subseq_skip | apply subseq_nil].

Lemma subseq_refl {A : Type} (l : list A) : subseq l l.
Proof. induction l; subseq_step; auto. Qed.

Lemma subseq_trans {A : Type} (l1 l2 l3 : list A) :
  subseq l1 l2 -> subseq l2 l3 -> subseq l1 l3.
Proof.
  intros H12 H23. revert l1 H12.
  induction H23 as [|x l2 l3 H IH|x l2 l3 H IH]; intros l1 H12.
  - exact H12.
  - subseq_step. auto.
  - inversion H12; subst; subseq_step; auto.
Qed.

Lemma subseq_map {A B : Type} (f : A -> B) (l1 l2 : list A) :
  subseq l1 l2 -> subseq (map f l1) (map f l2).
Proof. induction 1; cbn; subseq_step; auto. Qed.

Lemma unique_from_subseq (l : list string) : forall seen,
  subseq (unique_from seen l) l.
Proof.
  induction l as [|y l IH]; intros seen; cbn [unique_from].
  - constructor.
  - destruct (mem y seen); subseq_step; apply IH.
Qed.

Lemma collect_refs_subseq (raw : list string) :
  subseq (collect_refs raw) (map Py.strip raw).
Proof.
  induction raw as [|x raw IH]; cbn [collect_refs map].
  - constructor.
  - destruct (negb _ && negb _ && negb _); subseq_step; exact IH.
Qed.

(** X4.  The keys come out in the order of the cells of column D: the list
    returned is the list of the trimmed, non-missing cells with some entries
    left out. *)
Theorem get_flat_references_order (accommodation_df : DataFrame)
    (col : list cell) :
  iloc_col accommodation_df 3 = Some col ->
  subseq (get_flat_references accommodation_df) (map Py.strip (dropna col)).
Proof.
  intros Hcol. unfold get_flat_references. rewrite Hcol.
  eapply subseq_trans; [apply collect_refs_subseq|].
  apply subseq_map, unique_from_subseq.
Qed.

Lemma get_flat_references_order_witness :
  subseq
    (get_flat_references (schedule [Some "HT B"; None; Some "Flat 1"; Some " HT A"]))
    (map Py.strip (dropna [Some "HT B"; None; Some "Flat 1"; Some " HT A"])).
Proof.
  apply (get_flat_references_order
           (schedule [Some "HT B"; None; Some "Flat 1"; Some " HT A"])).
  reflexivity.
Defined.

(** ** [find_matching_sections]: what is matched, listed and counted *)

Lemma records_of_plain (entries : list (cell * cell)) (flat_refs : list string) :
  str_accessor (map snd entries) = true ->
  Forall (fun ref => Re.has_special ref = false) flat_refs ->
  records_of (map fst entries) (map snd entries) flat_refs
  = flat_map (fun ref => map (row_match ref) (literal_rows entries ref)) flat_refs.
Proof.
  intros Ha. induction 1 as [|ref rest Href _ IH]; [reflexivity|].
  unfold records_of in *. cbn [flat_map]. rewrite IH.
  rewrite key_rows_plain by assumption. reflexivity.
Qed.

(** X5.  When no key holds a special character and the catalog has a title,
    the matcher returns, key after key in the order of the keys, the rows
    whose title holds "Sections - " followed by the key, letter case apart,
    in the order of the catalog. *)
Theorem matches_on_plain_keys (entries : list (cell * cell))
    (flat_refs : list string) :
  str_accessor (map snd entries) = true ->
  Forall (fun ref => Re.has_special ref = false) flat_refs ->
  snd (find_matching_sections (catalog entries) flat_refs init)
  = Some (flat_map (fun ref => map (row_match ref) (literal_rows entries ref))
            flat_refs).
Proof.
  intros Ha Hplain.
  destruct (matching_completes entries flat_refs Ha) as (p & matches & Hbody).
  { eapply Forall_impl; [|exact Hplain]. intros ref. apply plain_key_compiles. }
  unfold find_matching_sections. rewrite Hbody. cbn [snd].
  apply find_matching_sections_body_done in Hbody as (-> & _).
  now rewrite records_of_plain.
Qed.

Lemma matches_on_plain_keys_witness :
  snd (find_matching_sections
         (catalog [(Some "F1.pdf", Some "Sections - HT A 1B2P - Block 3");
                   (Some "F9.pdf", Some "Elevations - HT B 2B3P");
                   (Some "F2.pdf", Some "SECTIONS - ht a 1b2p rev B")])
         ["HT A 1B2P"; "HT B 2B3P"] init)
  = Some [mkMatchInfo "HT A 1B2P" (Some "Sections - HT A 1B2P - Block 3")
            (Some "F1.pdf") 0;
          mkMatchInfo "HT A 1B2P" (Some "SECTIONS - ht a 1b2p rev B")
            (Some "F2.pdf") 2].
Proof.
  apply (matches_on_plain_keys
           [(Some "F1.pdf", Some "Sections - HT A 1B2P - Block 3");
            (Some "F9.pdf", Some "Elevations - HT B 2B3P");
            (Some "F2.pdf", Some "SECTIONS - ht a 1b2p rev B")]
           ["HT A 1B2P"; "HT B 2B3P"]).
  - reflexivity.
  - repeat constructor.
Defined.

Lemma counters_when_matching_completes_witness :
  let entries := [(Some "F1.pdf", Some "Sections - HT A 1B2P - Block 3");
                  (Some "F9.pdf", Some "Elevations - HT B 2B3P");
                  (Some "F2.pdf", Some "SECTIONS - ht a 1b2p rev B")] in
  let flat_refs := ["HT A 1B2P"; "HT B 2B3P"] in
  let p := fst (find_matching_sections_body (catalog entries) flat_refs init) in
  let matches :=
    [mkMatchInfo "HT A 1B2P" (Some "Sections - HT A 1B2P - Block 3") (Some "F1.pdf") 0;
     mkMatchInfo "HT A 1B2P" (Some "SECTIONS - ht a 1b2p rev B") (Some "F2.pdf") 2] in
  processed (stats p) = 2
  /\ not_found (stats p) = length (unmatched_refs (map snd entries) flat_refs)
  /\ processed (stats p)
     = not_found (stats p)
       + length (filter (key_matches (map snd entries)) flat_refs)
  /\ matched (stats p) = length matches.
Proof.
  intros entries flat_refs p matches.
  apply (counters_when_matching_completes entries flat_refs p matches).
  reflexivity.
Defined.

Lemma unused_when_matching_completes_witness :
  let entries := [(Some "F1.pdf", Some "Sections - HT A 1B2P - Block 3");
                  (Some "F5.pdf", Some "Sections - HT C 4B6P")] in
  let flat_refs := ["HT A 1B2P"; "HT B 2B3P"] in
  let p := fst (find_matching_sections_body (catalog entries) flat_refs init) in
  In (mkSectionFile (Some "F5.pdf") (Some "Sections - HT C 4B6P") false)
    (unused_section_files (detailed_results p)).
Proof.
  intros entries flat_refs p.
  apply (unused_when_matching_completes entries flat_refs p
           [mkMatchInfo "HT A 1B2P" (Some "Sections - HT A 1B2P - Block 3")
              (Some "F1.pdf") 0]).
  - reflexivity.
  - right. left. reflexivity.
  - reflexivity.
  - intros ref r [<-|[<-|[]]] E; vm_compute in E; injection E as <-; reflexivity.
Defined.

Lemma exact_title_matched_when_matching_completes_witness :
  let entries := [(Some "F1.pdf", Some "sections - ht a 1b2p");
                  (Some "F5.pdf", Some "Sections - HT C 4B6P")] in
  let flat_refs := ["HT A 1B2P"; "HT B 2B3P"] in
  exists i,
    In (mkMatchInfo "HT A 1B2P" (Some "sections - ht a 1b2p") (Some "F1.pdf") i)
      [mkMatchInfo "HT A 1B2P" (Some "sections - ht a 1b2p") (Some "F1.pdf") 0].
Proof.
  intros entries flat_refs.
  apply (exact_title_matched_when_matching_completes entries flat_refs
           (fst (find_matching_sections_body (catalog entries) flat_refs init))
           [mkMatchInfo "HT A 1B2P" (Some "sections - ht a 1b2p") (Some "F1.pdf") 0]
           "HT A 1B2P" (Some "F1.pdf") "sections - ht a 1b2p").
  - reflexivity.
  - left. reflexivity.
  - reflexivity.
  - left. reflexivity.
  - reflexivity.
Defined.

Lemma mark_matched_keys (f t : cell) (l : list SectionFile) :
  map section_key (mark_matched f t l) = map section_key l.
Proof.
  induction l as [|sf l IH]; [reflexivity|]. cbn [mark_matched].
  destruct (cell_eqb (sf_filename sf) f && cell_eqb (sf_title sf) t); cbn.
  - reflexivity.
  - now rewrite IH.
Qed.

Lemma mark_all_keys (sel : list (nat * cell * cell)) : forall l,
  map section_key (mark_all sel l) = map section_key l.
Proof.
  unfold mark_all. induction sel as [|[[i f] t] sel IH]; intros l; cbn [fold_left].
  - reflexivity.
  - now rewrite IH, mark_matched_keys.
Qed.

(** What the loop over the keys leaves untouched, however it ends. *)
Lemma match_refs_frame (filenames titles : list cell) (flat_refs : list string) :
  forall p matches,
    let p' := fst (match_refs filenames titles flat_refs p matches) in
    map section_key (all_section_files (detailed_results p'))
    = map section_key (all_section_files (detailed_results p))
    /\ successful_matches (detailed_results p') = successful_matches (detailed_results p)
    /\ file_not_found (detailed_results p') = file_not_found (detailed_results p)
    /\ copy_error_records (detailed_results p')
       = copy_error_records (detailed_results p)
    /\ unused_section_files (detailed_results p')
       = unused_section_files (detailed_results p)
    /\ all_flat_refs (detailed_results p') = all_flat_refs (detailed_results p)
    /\ copy_errors (stats p') = copy_errors (stats p)
    /\ processed (stats p) <= processed (stats p')
    /\ processed (stats p') <= processed (stats p) + length flat_refs.
Proof.
  induction flat_refs as [|ref rest IH]; intros p matches; cbn [match_refs].
  - cbn. repeat split; lia.
  - destruct (str_contains (target_pattern ref) titles) as [mask| |].
    + destruct (any mask).
      * rewrite record_matches_spec.
        match goal with
        | |- context [match_refs _ _ rest ?q ?ms] =>
            specialize (IH q ms); cbn zeta in IH;
            destruct (match_refs filenames titles rest q ms) as [p3 out]
        end.
        cbn in IH |- *.
        destruct IH as (H1 & H2 & H3 & H4 & H5 & H6 & H7 & H8 & H9).
        rewrite mark_all_keys in H1. repeat split; try assumption; lia.
      * match goal with
        | |- context [match_refs _ _ rest ?q ?ms] =>
            specialize (IH q ms); cbn zeta in IH;
            destruct (match_refs filenames titles rest q ms) as [p3 out]
        end.
        destruct p as [[] []]. cbn in IH |- *.
        destruct IH as (H1 & H2 & H3 & H4 & H5 & H6 & H7 & H8 & H9).
        repeat split; try assumption; lia.
    + destruct p as [[] []]. cbn. repeat split; lia.
    + destruct p as [[] []]. cbn. repeat split; lia.
Qed.

(** X11.  The matcher never touches the bookkeeping of the copies: the
    lists of successful copies, missing files and copy errors and the counter
    of copy errors are as before, whatever the frame and the keys, and
    [processed] grows by at most the number of keys. *)
Theorem find_matching_sections_keeps_copy_records (architect_df : DataFrame)
    (flat_refs : list string) (p : Processor) :
  let p' := fst (find_matching_sections architect_df flat_refs p) in
  successful_matches (detailed_results p') = successful_matches (detailed_results p)
  /\ file_not_found (detailed_results p') = file_not_found (detailed_results p)
  /\ copy_error_records (detailed_results p') = copy_error_records (detailed_results p)
  /\ copy_errors (stats p') = copy_errors (stats p)
  /\ processed (stats p) <= processed (stats p')
  /\ processed (stats p') <= processed (stats p) + length flat_refs.
Proof.
  unfold find_matching_sections, find_matching_sections_body.
  destruct (iloc_col architect_df 1) as [titles|];
    [|cbn; repeat split; lia].
  destruct (iloc_col architect_df 0) as [filenames|];
    [|cbn; repeat split; lia].
  destruct (str_contains "Sections" titles) as [mask| |];
    [|destruct p as [[] []]; cbn; repeat split; lia
     |destruct p as [[] []]; cbn; repeat split; lia].
  match goal with
  | |- context [match_refs ?f ?t ?k ?q ?ms] =>
      pose proof (match_refs_frame f t k q ms) as H; cbn zeta in H;
      destruct (match_refs f t k q ms) as [p3 [ms'| |]]
  end;
    destruct p as [[] []]; cbn in H |- *;
    destruct H as (_ & H2 & H3 & H4 & _ & _ & H7 & H8 & H9);
    repeat split; assumption.
Qed.

Lemma no_title_no_section (entries : list (cell * cell)) :
  str_accessor (map snd entries) = false ->
  filter (fun e => holds_sections (snd e)) entries = [].
Proof.
  intros Ha.
  assert (H : forall e, In e entries -> snd e = None).
  { intros [f [s|]] Hin; [|reflexivity].
    rewrite (str_accessor_member (map snd entries) s) in Ha; [discriminate|].
    apply in_map_iff. now exists (f, Some s). }
  clear Ha. induction entries as [|e entries IH]; [reflexivity|].
  cbn [filter]. rewrite (H e) by now left. cbn. apply IH.
  intros e' He'. apply H. now right.
Qed.

(** X10.  The section files listed are the catalog rows whose title holds
    "Sections", letter case apart, in the order of the catalog, however the
    loop over the keys ends. *)
Theorem section_files_listed (entries : list (cell * cell))
    (flat_refs : list string) :
  map section_key
    (all_section_files
       (detailed_results
          (fst (find_matching_sections (catalog entries) flat_refs init))))
  = filter (fun e => holds_sections (snd e)) entries.
Proof.
  unfold find_matching_sections, find_matching_sections_body.
  destruct (catalog_columns entries) as [E1 E0]. rewrite E1, E0.
  destruct (str_accessor (map snd entries)) eqn:Ha.
  2:{ unfold str_contains. rewrite Ha. cbn. now rewrite no_title_no_section. }
  rewrite str_contains_plain by (exact Ha || reflexivity).
  fold holds_sections.
  assert (Hsel : forall idx,
            map section_key
              (section_files_of
                 (selected idx (map holds_sections (map snd entries))
                    (map fst entries) (map snd entries)))
            = filter (fun e => holds_sections (snd e)) entries).
  { clear. induction entries as [|[f t] entries IH]; intros idx; [reflexivity|].
    cbn [map fst snd selected filter].
    destruct (holds_sections t); cbn; now rewrite IH. }
  match goal with
  | |- context [match_refs ?f ?t ?k ?q ?ms] =>
      pose proof (match_refs_frame f t k q ms) as H; cbn zeta in H;
      destruct (match_refs f t k q ms) as [p3 [ms'| |]]
  end; cbn in H |- *; destruct H as (H1 & _); rewrite H1; apply Hsel.
Qed.

Lemma mark_matched_in (sf : SectionFile) (f t : cell) (l : list SectionFile) :
  In sf (mark_matched f t l) ->
  In sf l \/ (sf_matched sf = true /\ sf_filename sf = f /\ sf_title sf = t).
Proof.
  induction l as [|x l IH]; [contradiction|]. cbn [mark_matched].
  destruct (cell_eqb (sf_filename x) f && cell_eqb (sf_title x) t) eqn:E.
  - apply andb_true_iff in E as [Ef Et].
    apply cell_eqb_true in Ef, Et.
    intros [<-|H]; [right; cbn; auto | left; now right].
  - intros [<-|H]; [left; now left|].
    destruct (IH H) as [H'|H']; [left; now right | now right].
Qed.

Lemma mark_all_in (sf : SectionFile) (sel : list (nat * cell * cell)) :
  forall l,
    In sf (mark_all sel l) ->
    In sf l
    \/ (sf_matched sf = true
        /\ exists i, In (i, sf_filename sf, sf_title sf) sel).
Proof.
  unfold mark_all. induction sel as [|[[i f] t] sel IH]; intros l H.
  - now left.
  - cbn [fold_left] in H. apply IH in H as [H|(Hm & j & Hj)].
    + apply mark_matched_in in H as [H|(Hm & <- & <-)]; [now left|].
      right. split; [exact Hm|]. exists i. now left.
    + right. split; [exact Hm|]. exists j. now right.
Qed.

Lemma mark_keys_in (filenames titles : list cell) (sf : SectionFile)
    (flat_refs : list string) :
  forall l,
    In sf (fold_left (fun l ref => mark_all (key_rows filenames titles ref) l)
             flat_refs l) ->
    In sf l
    \/ (sf_matched sf = true
        /\ exists ref i,
             In ref flat_refs
             /\ In (i, sf_filename sf, sf_title sf) (key_rows filenames titles ref)).
Proof.
  induction flat_refs as [|ref rest IH]; intros l H.
  - now left.
  - cbn [fold_left] in H. apply IH in H as [H|(Hm & r & i & Hr & Hi)].
    + apply mark_all_in in H as [H|(Hm & i & Hi)]; [now left|].
      right. split; [exact Hm|]. exists ref, i. split; [now left | exact Hi].
    + right. split; [exact Hm|]. exists r, i. split; [now right | exact Hi].
Qed.

(** X9.  When the matching stage runs to its end, a section file marked as
    matched is the file of some match returned: a match with the same
    filename and the same title exists. *)
Theorem used_section_files_were_matched (entries : list (cell * cell))
    (flat_refs : list string) (p : Processor) (matches : list MatchInfo)
    (sf : SectionFile) :
  find_matching_sections_body (catalog entries) flat_refs init = (p, Done matches) ->
  In sf (all_section_files (detailed_results p)) ->
  sf_matched sf = true ->
  exists m, In m matches /\ filename m = sf_filename sf /\ title m = sf_title sf.
Proof.
  intros H Hin Hm. apply find_matching_sections_body_done in H.
  destruct H as (-> & _ & Hall & _). rewrite Hall in Hin.
  apply mark_keys_in in Hin as [Hin|(_ & ref & i & Href & Hi)].
  - unfold section_files_of in Hin. apply in_map_iff in Hin as ([[j f] t] & <- & _).
    discriminate.
  - exists (row_match ref (i, sf_filename sf, sf_title sf)). split.
    + unfold records_of. apply in_flat_map. exists ref. split; [exact Href|].
      now apply in_map.
    + split; reflexivity.
Qed.

Lemma used_section_files_were_matched_witness :
  let entries := [(Some "F1.pdf", Some "Sections - HT A 1B2P - Block 3");
                  (Some "F5.pdf", Some "Sections - HT C 4B6P")] in
  let flat_refs := ["HT A 1B2P"; "HT B 2B3P"] in
  let matches :=
    [mkMatchInfo "HT A 1B2P" (Some "Sections - HT A 1B2P - Block 3")
       (Some "F1.pdf") 0] in
  exists m,
    In m matches /\ filename m = Some "F1.pdf"
    /\ title m = Some "Sections - HT A 1B2P - Block 3".
Proof.
  intros entries flat_refs matches.
  apply (used_section_files_were_matched entries flat_refs
           (fst (find_matching_sections_body (catalog entries) flat_refs init))
           matches
           (mkSectionFile (Some "F1.pdf") (Some "Sections - HT A 1B2P - Block 3") true)).
  - reflexivity.
  - left. reflexivity.
  - reflexivity.
Defined.

(** ** [generate_new_filename]: the source name is kept whole *)

Lemma rsplit_dot_some (f : string) :
  Py.has_dot f = true ->
  exists a b, Py.rsplit_dot f = Some (a, b) /\ f = a ++ String "." b.
Proof.
  induction f as [|c f IH]; cbn [Py.has_dot Py.rsplit_dot]; [discriminate|].
  intros H. destruct (Py.has_dot f) eqn:Ef.
  - destruct (IH eq_refl) as (a & b & -> & ->).
    exists (String c a), b. split; reflexivity.
  - rewrite orb_false_r in H. rewrite (rsplit_dot_none f Ef), H.
    apply Ascii.eqb_eq in H. subst c. exists "", f. split; reflexivity.
Qed.

Lemma generate_new_filename_keeps_name (original_filename ref drawing_type : string) :
  Py.has_dot original_filename = true ->
  generate_new_filename original_filename ref drawing_type
  = drawing_type ++ "_" ++ Py.remove_spaces ref ++ "_" ++ original_filename.
Proof.
  intros H. destruct (rsplit_dot_some original_filename H) as (a & b & E & ->).
  unfold generate_new_filename. rewrite E. reflexivity.
Qed.

Lemma append_inj_l (p x y : string) : p ++ x = p ++ y -> x = y.
Proof.
  induction p as [|c p IH]; cbn; intros H; [exact H|].
  injection H as H. auto.
Qed.

(** X12.  For a source name holding a dot the derived name is the drawing
    type, "_", the key without its spaces, "_", and the source name
    unchanged; so two different source names of that kind never get the
    same derived name under one key. *)
Theorem generate_new_filename_dotted (f1 f2 ref drawing_type : string) :
  Py.has_dot f1 = true ->
  Py.has_dot f2 = true ->
  generate_new_filename f1 ref drawing_type
  = drawing_type ++ "_" ++ Py.remove_spaces ref ++ "_" ++ f1
  /\ (f1 <> f2 ->
      generate_new_filename f1 ref drawing_type
      <> generate_new_filename f2 ref drawing_type).
Proof.
  intros H1 H2. split; [now apply generate_new_filename_keeps_name|].
  intros Hne E. rewrite !generate_new_filename_keeps_name in E by assumption.
  repeat apply append_inj_l in E. contradiction.
Qed.

Lemma generate_new_filename_dotted_witness :
  generate_new_filename "ARC-101.rev2.pdf" "HT A 3B4P" "sections"
  = "sections" ++ "_" ++ Py.remove_spaces "HT A 3B4P" ++ "_" ++ "ARC-101.rev2.pdf"
  /\ ("ARC-101.rev2.pdf" <> "ARC-101.pdf" ->
      generate_new_filename "ARC-101.rev2.pdf" "HT A 3B4P" "sections"
      <> generate_new_filename "ARC-101.pdf" "HT A 3B4P" "sections").
Proof.
  apply (generate_new_filename_dotted "ARC-101.rev2.pdf" "ARC-101.pdf"
           "HT A 3B4P" "sections"); reflexivity.
Defined.

(** X13.  Without a dot in the source name, ".pdf" is added, so a source
    name [b] and the source name [b.pdf] get the same derived name. *)
Theorem generate_new_filename_default_extension (b ref drawing_type : string) :
  Py.has_dot b = false ->
  generate_new_filename b ref drawing_type
  = generate_new_filename (b ++ ".pdf") ref drawing_type.
Proof.
  intros H. unfold generate_new_filename.
  rewrite (rsplit_dot_none b H).
  change (b ++ ".pdf") with (b ++ String "." "pdf").
  rewrite (rsplit_dot_last b "pdf" eq_refl). reflexivity.
Qed.

Lemma generate_new_filename_default_extension_witness :
  generate_new_filename "ARC-101" "HT A 3B4P" "sections"
  = generate_new_filename ("ARC-101" ++ ".pdf") "HT A 3B4P" "sections".
Proof.
  apply (generate_new_filename_default_extension "ARC-101" "HT A 3B4P" "sections").
  reflexivity.
Defined.

Lemma tolower_dot (c : ascii) :
  Ascii.eqb (Py.tolower c) "." = Ascii.eqb c ".".
Proof. destruct c as [[] [] [] [] [] [] [] []]; reflexivity. Qed.

Lemma has_dot_lower (s : string) : Py.has_dot (Py.lower s) = Py.has_dot s.
Proof.
  induction s as [|c s IH]; [reflexivity|].
  cbn [Py.lower Py.has_dot]. now rewrite tolower_dot, IH.
Qed.

Lemma endswith_pdf_has_dot (s : string) :
  Py.endswith ".pdf" s = true -> Py.has_dot s = true.
Proof.
  induction s as [|c s IH]; cbn [Py.endswith Py.has_dot].
  - cbn. discriminate.
  - intros H. apply orb_true_iff in H as [H|H].
    + apply String.eqb_eq in H. injection H as -> _. reflexivity.
    + rewrite (IH H). apply orb_true_r.
Qed.

Lemma with_ext_has_dot (name : string) :
  Py.has_dot (source_filename_with_ext name) = true.
Proof.
  rewrite <- has_dot_lower. apply endswith_pdf_has_dot, with_ext_ends_in_pdf.
Qed.

Lemma new_filename_of_looked_up_name (name ref : string) :
  generate_new_filename (source_filename_with_ext name) ref "sections"
  = "sections_" ++ Py.remove_spaces ref ++ "_" ++ source_filename_with_ext name.
Proof. apply generate_new_filename_keeps_name, with_ext_has_dot. Qed.

(** X14.  The name a copy is given is "sections_", the key without its
    spaces, "_", and the name looked up in the architect directory, whole. *)
Theorem copied_file_name (name ref : string) :
  generate_new_filename (source_filename_with_ext name) ref "sections"
  = "sections_" ++ Py.remove_spaces ref ++ "_" ++ source_filename_with_ext name.
Proof.
  assert (Hdot : Py.has_dot (source_filename_with_ext name) = true).
  { rewrite <- has_dot_lower. apply endswith_pdf_has_dot, with_ext_ends_in_pdf. }
  destruct (rsplit_dot_some _ Hdot) as (a & b & E & Hname).
  unfold generate_new_filename. rewrite E, Hname. reflexivity.
Qed.

(** ** [copy_file] and the loop over the matches: what is recorded and what
    is asked of the disk *)

(** The whole state a matching stage that ran to its end leaves behind. *)
Lemma find_matching_sections_body_state (entries : list (cell * cell))
    (flat_refs : list string) (p : Processor) (matches : list MatchInfo) :
  find_matching_sections_body (catalog entries) flat_refs init = (p, Done matches) ->
  let filenames := map fst entries in
  let titles := map snd entries in
  let listed :=
    fold_left (fun l ref => mark_all (key_rows filenames titles ref) l) flat_refs
      (section_files_of (selected 0 (map holds_sections titles) filenames titles)) in
  matches = records_of filenames titles flat_refs
  /\ p = mkProcessor
           (mkStats (length flat_refs) (length matches)
              (length (unmatched_refs titles flat_refs)) 0)
           (mkDetailed [] (map no_match_rec (unmatched_refs titles flat_refs)) [] []
              (unused_of listed) flat_refs listed).
Proof.
  intros H filenames titles listed. unfold find_matching_sections_body in H.
  destruct (catalog_columns entries) as [E1 E0]. rewrite E1, E0 in H.
  fold filenames titles in H.
  destruct (str_accessor titles) eqn:Eacc;
    [|unfold str_contains in H; rewrite Eacc in H; discriminate].
  rewrite str_contains_plain in H by (exact Eacc || reflexivity).
  fold holds_sections in H.
  match type of H with
  | context [match_refs ?f ?t ?k ?q ?ms] =>
      destruct (match_refs f t k q ms) as [p3 [ms'| |]] eqn:E
  end; try discriminate.
  injection H as <- <-.
  apply match_refs_done in E. destruct E as [-> ->]. cbn. split; reflexivity.
Qed.

Lemma method_returns_body (architect_df : DataFrame) (flat_refs : list string)
    (p p' : Processor) (m : MatchInfo) (ms : list MatchInfo) :
  find_matching_sections architect_df flat_refs p = (p', Some (m :: ms)) ->
  find_matching_sections_body architect_df flat_refs p = (p', Done (m :: ms)).
Proof.
  unfold find_matching_sections.
  destruct (find_matching_sections_body architect_df flat_refs p) as [q [x| |]];
    intros H; inversion H; subst; reflexivity.
Qed.

Section FileSystemMore.

Variable FS : Type.
Variable joinpath : string -> string -> string.
Variable fs_exists : FS -> string -> bool.
Variable fs_mkdir : FS -> string -> FS * option string.
Variable fs_copy2 : FS -> string -> string -> FS * option string.

Local Abbreviation copy_file' := (copy_file FS joinpath fs_exists fs_copy2).
Local Abbreviation process_match' :=
  (process_match FS joinpath fs_exists fs_mkdir fs_copy2).
Local Abbreviation process_matches' :=
  (process_matches FS joinpath fs_exists fs_mkdir fs_copy2).
Local Abbreviation process_files' :=
  (process_files FS joinpath fs_exists fs_mkdir fs_copy2).

Lemma count_calls_app (kind : fs_call -> bool) (l1 l2 : list fs_call) :
  count_calls kind (l1 ++ l2) = count_calls kind l1 + count_calls kind l2.
Proof. unfold count_calls. now rewrite filter_app, length_app. Qed.

(** X15.  [copy_file] returns [True] exactly when it adds one record to the
    successful copies; otherwise it adds one record either to the missing
    files or to the copy errors and counts one copy error.  It never adds
    two records, and it leaves the counters of the matching stage alone. *)
Theorem copy_file_records_once (source_filename : cell) (destination_path : string)
    (m : MatchInfo) (p : Processor) (w : World FS) :
  let p' := fst (fst (copy_file' source_filename destination_path m p w)) in
  let ok := snd (copy_file' source_filename destination_path m p w) in
  let d := detailed_results p in
  let d' := detailed_results p' in
  processed (stats p') = processed (stats p)
  /\ matched (stats p') = matched (stats p)
  /\ not_found (stats p') = not_found (stats p)
  /\ ((ok = true
       /\ (exists r, successful_matches d' = (successful_matches d ++ [r])%list)
       /\ file_not_found d' = file_not_found d
       /\ copy_error_records d' = copy_error_records d
       /\ copy_errors (stats p') = copy_errors (stats p))
      \/ (ok = false
          /\ successful_matches d' = successful_matches d
          /\ copy_errors (stats p') = S (copy_errors (stats p))
          /\ ((exists r, file_not_found d' = (file_not_found d ++ [r])%list)
              /\ copy_error_records d' = copy_error_records d
              \/ (exists r, copy_error_records d' = (copy_error_records d ++ [r])%list)
                 /\ file_not_found d' = file_not_found d))).
Proof.
  unfold copy_file. destruct source_filename as [name|].
  - destruct (fs_exists (disk w) _); cbn [negb].
    + destruct (fs_copy2 (disk w) _ _) as [d2 [e|]]; cbn.
      * repeat split. right. repeat split. right. split; [eexists|]; reflexivity.
      * repeat split. left. repeat split. eexists; reflexivity.
    + cbn. repeat split. right. repeat split. left. split; [eexists|]; reflexivity.
  - cbn. repeat split. right. repeat split. right. split; [eexists|]; reflexivity.
Qed.


(** X17.  When the output directory cannot be made, the match is passed
    over: nothing is looked up or copied, no list and no counter changes. *)
Theorem process_match_skips_when_mkdir_fails (m : MatchInfo) (p : Processor)
    (w : World FS) (d1 : FS) (e : string) :
  let out := joinpath (processed_path joinpath) (flat_ref m) in
  fs_mkdir (disk w) out = (d1, Some e) ->
  process_match' m p w = (p, mkWorld d1 (calls w ++ [Mkdir out])).
Proof.
  intros out H. unfold process_match, create_output_structure.
  fold out. now rewrite H.
Qed.

Lemma process_match_effect (m : MatchInfo) (p : Processor) (w : World FS) :
  let r := process_match' m p w in
  loop_effect joinpath [flat_ref m] 1 p (fst r) (calls w) (calls (snd r)).
Proof.
  unfold process_match, create_output_structure.
  destruct (fs_mkdir (disk w) _) as [d1 [e|]].
  - cbn. constructor; try reflexivity.
    + rewrite count_calls_app. cbn. lia.
    + exists [], [], []. rewrite !app_nil_r, count_calls_app. cbn.
      repeat split; try lia. constructor.
  - unfold copy_file. destruct (filename m) as [name|].
    + cbn [disk calls].
      destruct (fs_exists d1 _) eqn:Hex; cbn [negb].
      * rewrite new_filename_of_looked_up_name.
        destruct (fs_copy2 d1 _ _) as [d2 [e|]]; cbn;
          (constructor; try reflexivity;
           [rewrite !count_calls_app; cbn; lia|]).
        -- exists [], []; eexists [_]. rewrite !app_nil_r, !count_calls_app. cbn.
           repeat split; try lia. constructor.
        -- eexists [_]; exists [], []. rewrite !app_nil_r, !count_calls_app. cbn.
           repeat split; try lia.
           constructor; [|constructor]. cbn. repeat split; auto.
           apply with_ext_ends_in_pdf.
      * cbn. constructor; try reflexivity;
          [rewrite !count_calls_app; cbn; lia|].
        exists []; eexists [_]; exists []. rewrite !app_nil_r, !count_calls_app. cbn.
        repeat split; try lia. constructor.
    + cbn. constructor; try reflexivity;
        [rewrite !count_calls_app; cbn; lia|].
      exists [], []; eexists [_]. rewrite !app_nil_r, !count_calls_app. cbn.
      repeat split; try lia. constructor.
Qed.

Lemma loop_effect_none (refs : list string) (p : Processor) (l : list fs_call) :
  loop_effect joinpath refs 0 p p l l.
Proof.
  constructor; try reflexivity; [lia|].
  exists [], [], []. rewrite !app_nil_r. cbn. repeat split; try lia. constructor.
Qed.

Lemma loop_effect_then (refs1 refs2 : list string) (n1 n2 : nat)
    (p p1 p2 : Processor) (l l1 l2 : list fs_call) :
  loop_effect joinpath refs1 n1 p p1 l l1 ->
  loop_effect joinpath refs2 n2 p1 p2 l1 l2 ->
  loop_effect joinpath (refs1 ++ refs2) (n1 + n2) p p2 l l2.
Proof.
  intros [A1 A2 A3 A4 A5 A6 A7 A8 (ok1 & nf1 & ce1 & B1 & B2 & B3 & B4 & B5 & B6 & B7 & B8)]
         [C1 C2 C3 C4 C5 C6 C7 C8 (ok2 & nf2 & ce2 & D1 & D2 & D3 & D4 & D5 & D6 & D7 & D8)].
  constructor; try congruence; [lia|].
  exists (ok1 ++ ok2)%list, (nf1 ++ nf2)%list, (ce1 ++ ce2)%list.
  rewrite D1, D2, D3, B1, B2, B3, !length_app, <- !app_assoc.
  repeat split; try lia.
  apply Forall_app. split; (eapply Forall_impl; [|eassumption]);
    intros r [Hin Hw]; (split; [apply in_or_app; auto | exact Hw]).
Qed.

Lemma process_matches_effect (matches : list MatchInfo) :
  forall (p : Processor) (w : World FS),
    let r := process_matches' matches p w in
    loop_effect joinpath (map flat_ref matches) (length matches)
      p (fst r) (calls w) (calls (snd r)).
Proof.
  induction matches as [|m rest IH]; intros p w.
  - apply loop_effect_none.
  - cbn [process_matches map length].
    pose proof (process_match_effect m p w) as H1. cbn zeta in H1.
    destruct (process_match' m p w) as [p1 w1]. cbn [fst snd] in H1.
    specialize (IH p1 w1). cbn zeta in IH.
    apply (loop_effect_then [flat_ref m] (map flat_ref rest) 1 (length rest)
             p p1 _ (calls w) (calls w1) _ H1 IH).
Qed.

(** X18.  The loop over the matches asks for one [mkdir] a match and for at
    most one copy a match; it adds at most one record a match, to the
    successful copies, the missing files or the copy errors; the counter of
    copy errors grows by the number of missing files and copy errors added;
    and every successful copy added stands for one copy asked of the disk. *)
Theorem process_matches_accounting (matches : list MatchInfo) (p : Processor)
    (w : World FS) :
  let r := process_matches' matches p w in
  let d := detailed_results p in
  let d' := detailed_results (fst r) in
  count_calls is_mkdir (calls (snd r))
  = count_calls is_mkdir (calls w) + length matches
  /\ count_calls is_copy2 (calls (snd r))
     <= count_calls is_copy2 (calls w) + length matches
  /\ length (successful_matches d') + length (file_not_found d')
     + length (copy_error_records d')
     <= length (successful_matches d) + length (file_not_found d)
        + length (copy_error_records d) + length matches
  /\ copy_errors (stats (fst r)) + length (file_not_found d)
     + length (copy_error_records d)
     = copy_errors (stats p) + length (file_not_found d')
       + length (copy_error_records d')
  /\ count_calls is_copy2 (calls w) + length (successful_matches d')
     <= count_calls is_copy2 (calls (snd r)) + length (successful_matches d).
Proof.
  intros r d d'.
  destruct (process_matches_effect matches p w)
    as [_ _ _ _ _ _ _ A8 (ok & nf & ce & B1 & B2 & B3 & B4 & B5 & B6 & B7 & _)].
  fold r in A8, B1, B2, B3, B5, B6, B7. fold d d' in B1, B2, B3.
  rewrite B1, B2, B3, !length_app. repeat split; lia.
Qed.

(** X19.  The loop over the matches leaves the results of the matching
    stage as they were: the three counters [processed], [matched] and
    [not_found], the keys, the keys without a match, the section files and
    the unused ones. *)
Theorem process_matches_keeps_matching_results (matches : list MatchInfo)
    (p : Processor) (w : World FS) :
  let p' := fst (process_matches' matches p w) in
  processed (stats p') = processed (stats p)
  /\ matched (stats p') = matched (stats p)
  /\ not_found (stats p') = not_found (stats p)
  /\ all_flat_refs (detailed_results p') = all_flat_refs (detailed_results p)
  /\ no_matches_found (detailed_results p') = no_matches_found (detailed_results p)
  /\ all_section_files (detailed_results p') = all_section_files (detailed_results p)
  /\ unused_section_files (detailed_results p')
     = unused_section_files (detailed_results p).
Proof.
  destruct (process_matches_effect matches p w) as [A1 A2 A3 A4 A5 A6 A7 _ _].
  cbn zeta. repeat split; assumption.
Qed.

(** X20.  Every successful copy the loop records belongs to the key of one
    of the matches; its folder is the processed directory joined with the
    key, its destination the folder joined with the derived name, its source
    the architect directory joined with the name looked up, which ends in
    ".pdf" letter case apart, and its derived name is "sections_", the key
    without spaces, "_", and the name looked up. *)
Theorem successful_copies_well_recorded (matches : list MatchInfo) (p : Processor)
    (w : World FS) :
  exists added,
    successful_matches (detailed_results (fst (process_matches' matches p w)))
    = (successful_matches (detailed_results p) ++ added)%list
    /\ Forall (fun r => In (ok_flat_ref r) (map flat_ref matches)
                        /\ well_recorded joinpath r) added.
Proof.
  destruct (process_matches_effect matches p w)
    as [_ _ _ _ _ _ _ _ (ok & nf & ce & B1 & _ & _ & _ & _ & _ & _ & B8)].
  exists ok. split; assumption.
Qed.

(** X21.  A run that returns [False] has changed nothing: the processor
    is as [__init__] left it, the disk was not asked anything, nothing was
    printed or reported.  A run without report has not touched the disk
    either.  A run with a report returned [True], and the report follows the
    statistics, both taken from the final state. *)
Theorem process_files_outcomes (loaded : option (DataFrame * DataFrame))
    (w : World FS) (run : Run FS) :
  process_files' loaded w = Some run ->
  (returned FS run = false ->
   final FS run = init /\ world FS run = w /\ emitted FS run = [])
  /\ (emitted FS run = [] -> world FS run = w)
  /\ (emitted FS run <> [] ->
      returned FS run = true
      /\ emitted FS run
         = [PrintStatistics (stats (final FS run));
            GenerateReport (detailed_results (final FS run))]).
Proof.
  unfold process_files. destruct loaded as [[acc arch]|].
  - destruct (get_flat_references acc) as [|ref refs].
    + intros H. injection H as <-. cbn. repeat split; congruence.
    + destruct (find_matching_sections arch (ref :: refs) init)
        as [p1 [[|m ms]|]]; [| |discriminate].
      * intros H. injection H as <-. cbn. repeat split; congruence.
      * destruct (process_matches' (m :: ms) p1 w) as [p2 w2].
        intros H. injection H as <-. cbn. repeat split; congruence.
  - intros H. injection H as <-. cbn. repeat split; congruence.
Qed.

(** X22.  In a run that reaches the report, the statistics printed add up:
    [processed] is the number of keys extracted, [not_found] the number of
    keys without a matching row, [matched] is at least one and is the number
    of calls of [mkdir], [copy_errors] is the number of missing files plus
    the number of copy errors, and the successful copies and the copy errors
    together do not exceed [matched]. *)
Theorem finished_run_statistics (accommodation_df : DataFrame)
    (entries : list (cell * cell)) (w : World FS) (run : Run FS) :
  process_files' (Some (accommodation_df, catalog entries)) w = Some run ->
  emitted FS run <> [] ->
  let s := stats (final FS run) in
  let d := detailed_results (final FS run) in
  let keys := get_flat_references accommodation_df in
  all_flat_refs d = keys
  /\ processed s = length keys
  /\ not_found s = length (unmatched_refs (map snd entries) keys)
  /\ length (no_matches_found d) = not_found s
  /\ 1 <= matched s
  /\ count_calls is_mkdir (calls (world FS run))
     = count_calls is_mkdir (calls w) + matched s
  /\ copy_errors s = length (file_not_found d) + length (copy_error_records d)
  /\ length (successful_matches d) + copy_errors s <= matched s.
Proof.
  unfold process_files.
  destruct (get_flat_references accommodation_df) as [|ref refs] eqn:Ekeys.
  { intros H. injection H as <-. cbn. congruence. }
  destruct (find_matching_sections (catalog entries) (ref :: refs) init)
    as [p1 [[|m ms]|]] eqn:Efind; [| |discriminate].
  { intros H. injection H as <-. cbn. congruence. }
  apply method_returns_body, find_matching_sections_body_state in Efind.
  destruct Efind as [Hm Hp1].
  destruct (process_matches_effect (m :: ms) p1 w)
    as [A1 A2 A3 A4 A5 A6 A7 A8 (ok & nf & ce & B1 & B2 & B3 & B4 & B5 & _)].
  destruct (process_matches' (m :: ms) p1 w) as [p2 w2].
  intros H _. injection H as <-. cbn [final world stats detailed_results fst snd] in *.
  subst p1. cbn in A1, A2, A3, A4, A6, A8, B1, B2, B3, B4, B5.
  rewrite A1, A2, A3, A4, A6, A8, B1, B2, B3, B5, length_map.
  repeat split; lia.
Qed.

End FileSystemMore.

(** ** More runs on the small disk *)


Lemma process_match_skips_when_mkdir_fails_witness :
  let m := mkMatchInfo "HT A 1B2P" (Some "Sections - HT A 1B2P") (Some "F1.pdf") 0 in
  let out := "C:\Users\IS19\Documents\as_built_extraction\processed\HT A 1B2P" in
  let d := mkSimpleFS [] true in
  process_match SimpleFS simple_join simple_exists simple_mkdir simple_copy2 m init
    (mkWorld d [])
  = (init, mkWorld d [Mkdir out]).
Proof.
  intros m out d.
  apply (process_match_skips_when_mkdir_fails SimpleFS simple_join simple_exists
           simple_mkdir simple_copy2 m init (mkWorld d []) d
           "[Errno 13] Permission denied").
  reflexivity.
Defined.

Lemma process_files_outcomes_witness :
  let w := mkWorld (mkSimpleFS [] false) [] in
  let run := mkRun SimpleFS false init w [] in
  (returned SimpleFS run = false ->
   final SimpleFS run = init /\ world SimpleFS run = w /\ emitted SimpleFS run = [])
  /\ (emitted SimpleFS run = [] -> world SimpleFS run = w)
  /\ (emitted SimpleFS run <> [] ->
      returned SimpleFS run = true
      /\ emitted SimpleFS run
         = [PrintStatistics (stats (final SimpleFS run));
            GenerateReport (detailed_results (final SimpleFS run))]).
Proof.
  intros w run.
  apply (process_files_outcomes SimpleFS simple_join simple_exists simple_mkdir
           simple_copy2
           (Some (schedule [Some "Flat / House Ref"; None],
                  catalog [(Some "F1.pdf", Some "Sections - HT A 1B2P")]))
           w run).
  reflexivity.
Defined.

Lemma finished_run_statistics_witness :
  let sched := schedule [Some "HT A 1B2P"; Some "HT B 2B3P"] in
  let entries := [(Some "F1", Some "Sections - HT A 1B2P - Block 3");
                  (Some "F7.pdf", Some "sections - ht a 1b2p - roof");
                  (Some "F9.pdf", Some "Elevations - HT B 2B3P")] in
  let w := mkWorld
             (mkSimpleFS
                ["C:\Users\IS19\Documents\as_built_extraction\architect\F1.pdf"]
                false) [] in
  exists run,
    process_files SimpleFS simple_join simple_exists simple_mkdir simple_copy2
      (Some (sched, catalog entries)) w = Some run
    /\ stats (final SimpleFS run) = mkStats 2 2 1 1
    /\ all_flat_refs (detailed_results (final SimpleFS run))
       = get_flat_references sched
    /\ count_calls is_mkdir (calls (world SimpleFS run))
       = count_calls is_mkdir (calls w) + matched (stats (final SimpleFS run))
    /\ copy_errors (stats (final SimpleFS run))
       = length (file_not_found (detailed_results (final SimpleFS run)))
         + length (copy_error_records (detailed_results (final SimpleFS run))).
Proof.
  intros sched entries w.
  destruct (process_files SimpleFS simple_join simple_exists simple_mkdir
              simple_copy2 (Some (sched, catalog entries)) w) as [run|] eqn:E;
    [|vm_compute in E; discriminate].
  exists run. split; [reflexivity|].
  assert (Hem : emitted SimpleFS run <> []).
  { vm_compute in E. injection E as <-. discriminate. }
  destruct (finished_run_statistics SimpleFS simple_join simple_exists simple_mkdir
              simple_copy2 sched entries w run E Hem)
    as (H1 & _ & _ & _ & _ & H6 & H7 & _).
  split; [vm_compute in E; injection E as <-; reflexivity|].
  split; [exact H1|]. split; [exact H6 | exact H7].
Defined.

(** ** The computed sheets of the report *)

Lemma dict_get_set_same (k : string) (v : list SuccessRec) (d : Report.dict) :
  Report.dict_get k (Report.dict_set k v d) = Some v.
Proof.
  induction d as [|[k' v'] d IH]; cbn.
  - now rewrite String.eqb_refl.
  - destruct (String.eqb k k') eqn:E; cbn; rewrite E; [reflexivity | exact IH].
Qed.

Lemma dict_get_set_other (k k' : string) (v : list SuccessRec) (d : Report.dict) :
  k <> k' -> Report.dict_get k (Report.dict_set k' v d) = Report.dict_get k d.
Proof.
  intros Hne. induction d as [|[k2 v2] d IH]; cbn.
  - apply String.eqb_neq in Hne. now rewrite Hne.
  - destruct (String.eqb k' k2) eqn:E; cbn.
    + apply String.eqb_eq in E. subst k2.
      apply String.eqb_neq in Hne. now rewrite Hne.
    + destruct (String.eqb k k2); [reflexivity | exact IH].
Qed.

Lemma group_step_groups (d : Report.dict) (items : list SuccessRec)
    (item : SuccessRec) :
  groups d items -> groups (Report.group_step d item) (items ++ [item]).
Proof.
  intros H ref. unfold Report.group_step.
  rewrite filter_app. cbn [filter]. unfold for_ref at 2.
  remember (ok_flat_ref item) as k eqn:Ek.
  remember (match Report.dict_get k d with
            | Some _ => d
            | None => Report.dict_set k [] d
            end) as d1 eqn:Ed1.
  assert (H1 : Report.dict_get k d1 = Some (filter (for_ref k) items)).
  { subst d1. rewrite (H k).
    destruct (filter (for_ref k) items) eqn:E.
    - apply dict_get_set_same.
    - rewrite (H k), E. reflexivity. }
  assert (H2 : forall r, r <> k -> Report.dict_get r d1 = Report.dict_get r d).
  { intros r Hr. subst d1. destruct (Report.dict_get k d); [reflexivity|].
    now apply dict_get_set_other. }
  rewrite H1. destruct (String.eqb_spec k ref) as [E|Hne].
  - subst ref. rewrite dict_get_set_same.
    destruct (filter (for_ref k) items); reflexivity.
  - rewrite app_nil_r, dict_get_set_other, H2 by congruence. apply H.
Qed.

Lemma group_by_flat_ref_groups (items : list SuccessRec) :
  groups (Report.group_by_flat_ref items) items.
Proof.
  unfold Report.group_by_flat_ref.
  assert (G : forall rest d seen,
            groups d seen ->
            groups (fold_left Report.group_step rest d) (seen ++ rest)).
  { induction rest as [|item rest IH]; intros d seen H; cbn [fold_left].
    - now rewrite app_nil_r.
    - replace (seen ++ item :: rest)%list with ((seen ++ [item]) ++ rest)%list
        by now rewrite <- app_assoc.
      apply IH, group_step_groups, H. }
  apply (G items [] []). intros ref. reflexivity.
Qed.

Lemma summary_sheet_by_rows (d : Detailed) :
  Report.summary_by_flat_ref_sheet d = map (summary_row d) (all_flat_refs d).
Proof.
  unfold Report.summary_by_flat_ref_sheet. apply map_ext. intros ref.
  rewrite (group_by_flat_ref_groups (successful_matches d) ref).
  unfold summary_row. destruct (filter (for_ref ref) (successful_matches d));
    reflexivity.
Qed.

(** X23.  The sheet 'Summary by Flat Ref' has one row a key, in the order of
    the keys; the row counts the successful copies of the key, says
    "SUCCESS" when there is one and "NO MATCH" otherwise, also for a key
    whose matches all failed to copy, and gives the folder of the key's first
    successful copy. *)
Theorem summary_by_flat_ref_rows (d : Detailed) :
  Report.summary_by_flat_ref_sheet d
  = map (fun ref =>
           let files := filter (for_ref ref) (successful_matches d) in
           Report.mkSummaryRow ref (length files)
             (match files with [] => "NO MATCH" | _ :: _ => "SUCCESS" end)
             (match files with
              | [] => "N/A"
              | first :: _ => ok_destination_folder first
              end))
      (all_flat_refs d).
Proof.
  unfold Report.summary_by_flat_ref_sheet. apply map_ext. intros ref.
  rewrite (group_by_flat_ref_groups (successful_matches d) ref).
  destruct (filter (for_ref ref) (successful_matches d)); reflexivity.
Qed.

Lemma existsb_filter {A : Type} (f : A -> bool) (l : list A) :
  existsb f l = match filter f l with [] => false | _ :: _ => true end.
Proof.
  induction l as [|x l IH]; [reflexivity|]. cbn.
  destruct (f x); [reflexivity | exact IH].
Qed.

Lemma map_enumerate {A B : Type} (f : A -> B) (l : list A) : forall i,
  map (fun '(_, x) => f x) (Report.enumerate i l) = map f l.
Proof. induction l as [|x l IH]; intros i; cbn; [reflexivity | now rewrite IH]. Qed.

(** X24.  The sheets 'All Flat References' and 'Summary by Flat Ref' agree:
    row by row they name the same key and the same number of files copied,
    and the first says "PROCESSED" exactly where the second says
    "SUCCESS". *)
Theorem flat_ref_sheets_agree (d : Detailed) :
  map (fun r => (Report.fr_flat_ref r, Report.fr_files_copied r,
                 String.eqb (Report.fr_status r) "PROCESSED"))
    (Report.all_flat_references_sheet d)
  = map (fun r => (Report.sr_flat_ref r, Report.sr_files_copied r,
                   String.eqb (Report.sr_status r) "SUCCESS"))
      (Report.summary_by_flat_ref_sheet d).
Proof.
  rewrite summary_sheet_by_rows. unfold Report.all_flat_references_sheet.
  rewrite !map_map.
  rewrite <- (map_enumerate
                (fun ref => (Report.sr_flat_ref (summary_row d ref),
                             Report.sr_files_copied (summary_row d ref),
                             String.eqb (Report.sr_status (summary_row d ref))
                               "SUCCESS"))
                (all_flat_refs d) 1).
  apply map_ext. intros [i ref]. unfold summary_row. cbn.
  rewrite existsb_filter. fold (for_ref ref).
  destruct (filter (for_ref ref) (successful_matches d)); reflexivity.
Qed.

Lemma unused_rows_of_sections (l : list SectionFile) : forall i,
  map (fun r => (Report.un_filename r, Report.un_title r))
    (map (fun item =>
            Report.mkUnusedRow (sf_filename item) (sf_title item) "UNUSED")
       (unused_of l))
  = map (fun r => (Report.sc_filename r, Report.sc_title r))
      (filter (fun r => String.eqb (Report.sc_status r) "UNUSED")
         (map (fun '(i, section_file) =>
                 Report.mkSectionRow i (sf_filename section_file)
                   (sf_title section_file)
                   (if sf_matched section_file then "USED" else "UNUSED"))
            (Report.enumerate i l))).
Proof.
  induction l as [|sf l IH]; intros i; [reflexivity|].
  cbn [unused_of filter map Report.enumerate].
  destruct (sf_matched sf); cbn; fold (unused_of l); now rewrite <- IH.
Qed.

Section ReportOfARun.

Variable FS : Type.
Variable joinpath : string -> string -> string.
Variable fs_exists : FS -> string -> bool.
Variable fs_mkdir : FS -> string -> FS * option string.
Variable fs_copy2 : FS -> string -> string -> FS * option string.

Local Abbreviation process_files' :=
  (process_files FS joinpath fs_exists fs_mkdir fs_copy2).

(** The state a run that reaches the report ends in. *)
Lemma finished_run_state (accommodation_df : DataFrame)
    (entries : list (cell * cell)) (w : World FS) (run : Run FS) :
  process_files' (Some (accommodation_df, catalog entries)) w = Some run ->
  emitted FS run <> [] ->
  let d := detailed_results (final FS run) in
  unused_section_files d = unused_of (all_section_files d)
  /\ Forall (well_recorded joinpath) (successful_matches d).
Proof.
  unfold process_files.
  destruct (get_flat_references accommodation_df) as [|ref refs].
  { intros H. injection H as <-. cbn. congruence. }
  destruct (find_matching_sections (catalog entries) (ref :: refs) init)
    as [p1 [[|m ms]|]] eqn:Efind; [| |discriminate].
  { intros H. injection H as <-. cbn. congruence. }
  apply method_returns_body, find_matching_sections_body_state in Efind.
  destruct Efind as [_ Hp1].
  destruct (process_matches_effect FS joinpath fs_exists fs_mkdir fs_copy2
              (m :: ms) p1 w)
    as [_ _ _ _ A5 _ A7 _ (ok & nf & ce & B1 & _ & _ & _ & _ & _ & _ & B8)].
  destruct (process_matches FS joinpath fs_exists fs_mkdir fs_copy2 (m :: ms) p1 w)
    as [p2 w2].
  intros H _. injection H as <-. cbn [final detailed_results fst snd] in *.
  rewrite A5, A7, B1. subst p1. cbn. split; [reflexivity|].
  eapply Forall_impl; [|exact B8]. now intros r [_ Hr].
Qed.

(** X25.  In the report of a run, the sheet 'Unused Section Files' lists the
    rows that the sheet 'All Section Files' marks "UNUSED", in the same
    order. *)
Theorem unused_sheet_agrees_with_section_sheet (accommodation_df : DataFrame)
    (entries : list (cell * cell)) (w : World FS) (run : Run FS) :
  process_files' (Some (accommodation_df, catalog entries)) w = Some run ->
  emitted FS run <> [] ->
  let d := detailed_results (final FS run) in
  map (fun r => (Report.un_filename r, Report.un_title r))
    (Report.unused_section_files_sheet d)
  = map (fun r => (Report.sc_filename r, Report.sc_title r))
      (filter (fun r => String.eqb (Report.sc_status r) "UNUSED")
         (Report.all_section_files_sheet d)).
Proof.
  intros H Hem d.
  destruct (finished_run_state accommodation_df entries w run H Hem) as [Hu _].
  fold d in Hu.
  unfold Report.unused_section_files_sheet, Report.all_section_files_sheet.
  rewrite Hu. apply unused_rows_of_sections.
Qed.

(** X26.  In the report of a run, a row of 'Summary by Flat Ref' that says
    "SUCCESS" names as output folder the processed directory joined with the
    key of the row. *)
Theorem success_rows_name_the_key_folder (accommodation_df : DataFrame)
    (entries : list (cell * cell)) (w : World FS) (run : Run FS) :
  process_files' (Some (accommodation_df, catalog entries)) w = Some run ->
  emitted FS run <> [] ->
  Forall (fun row =>
            Report.sr_status row = "SUCCESS" ->
            Report.sr_output_folder row
            = joinpath (processed_path joinpath) (Report.sr_flat_ref row))
    (Report.summary_by_flat_ref_sheet (detailed_results (final FS run))).
Proof.
  intros H Hem.
  destruct (finished_run_state accommodation_df entries w run H Hem) as [_ Hw].
  cbn zeta in Hw. rewrite summary_sheet_by_rows.
  apply Forall_forall. intros row Hrow.
  apply in_map_iff in Hrow as (ref & <- & _).
  unfold summary_row. cbn.
  destruct (filter (for_ref ref) (successful_matches _)) as [|first rest] eqn:E;
    [discriminate|].
  intros _.
  assert (Hin : In first (filter (for_ref ref)
                            (successful_matches (detailed_results (final FS run)))))
    by (rewrite E; now left).
  apply filter_In in Hin as [Hin Href].
  rewrite Forall_forall in Hw. destruct (Hw first Hin) as (Hf & _).
  unfold for_ref in Href. apply String.eqb_eq in Href. now rewrite Hf, Href.
Qed.

End ReportOfARun.

(** ** [validate_data.py] against the processor *)

Section ValidationFacts.

Variable FS : Type.
Variable joinpath : string -> string -> string.
Variable fs_exists : FS -> string -> bool.
Variable fs_copy2 : FS -> string -> string -> FS * option string.

Local Abbreviation check_files' := (Validate.check_files FS joinpath fs_exists).
Local Abbreviation check_file_availability' :=
  (Validate.check_file_availability FS joinpath fs_exists).

Lemma check_files_spec (disk : FS) (filenames : list string) :
  forall found_count missing_count,
    let r := check_files' disk filenames found_count missing_count in
    let lines := snd r in
    fst (fst r) = found_count + length (filter is_found_line lines)
    /\ fst (fst r) + snd (fst r) = found_count + missing_count + length filenames
    /\ length lines = length filenames
    /\ (forall name, In (Validate.FoundFile name) lines ->
          In name filenames
          /\ fs_exists disk (joinpath (architect_path joinpath) name) = true)
    /\ (forall name, In (Validate.MissingFile name) lines ->
          In name filenames
          /\ fs_exists disk (joinpath (architect_path joinpath) name) = false)
    /\ (forall l, In l lines ->
          exists name, l = Validate.FoundFile name \/ l = Validate.MissingFile name).
Proof.
  induction filenames as [|x rest IH]; intros f m; cbn [Validate.check_files].
  - cbn. split; [lia|]. split; [lia|]. split; [reflexivity|].
    split; [|split]; try contradiction; intros l [].
  - destruct (fs_exists disk _) eqn:E.
    + specialize (IH (S f) m). cbn zeta in IH.
      destruct (check_files' disk rest (S f) m) as [[f' m'] lines].
      cbn in IH |- *. destruct IH as (H1 & H2 & H3 & H4 & H5 & H6).
      split; [lia|]. split; [lia|]. split; [lia|]. split; [|split].
      * intros name [H|H].
        -- injection H as <-. split; [now left | exact E].
        -- destruct (H4 name H). split; [now right | assumption].
      * intros name [H|H]; [discriminate|].
        destruct (H5 name H). split; [now right | assumption].
      * intros l [<-|H]; [exists x; now left | now apply H6].
    + specialize (IH f (S m)). cbn zeta in IH.
      destruct (check_files' disk rest f (S m)) as [[f' m'] lines].
      cbn in IH |- *. destruct IH as (H1 & H2 & H3 & H4 & H5 & H6).
      split; [lia|]. split; [lia|]. split; [lia|]. split; [|split].
      * intros name [H|H]; [discriminate|].
        destruct (H4 name H). split; [now right | assumption].
      * intros name [H|H].
        -- injection H as <-. split; [now left | exact E].
        -- destruct (H5 name H). split; [now right | assumption].
      * intros l [<-|H]; [exists x; now right | now apply H6].
Qed.



End ValidationFacts.

Lemma sum_selected (mask : list bool) : forall idx filenames titles,
  length filenames = length mask -> length titles = length mask ->
  Validate.sum mask = length (selected idx mask filenames titles).
Proof.
  unfold Validate.sum.
  induction mask as [|b mask IH]; intros idx fs ts Hf Ht.
  - destruct fs, ts; reflexivity.
  - destruct fs as [|f fs]; [discriminate|]. destruct ts as [|t ts]; [discriminate|].
    cbn [filter selected]. injection Hf as Hf. injection Ht as Ht.
    destruct b; cbn [length app]; now rewrite (IH (S idx) fs ts Hf Ht).
Qed.

Lemma test_refs_plain (filenames titles : list cell) (flat_refs : list string) :
  str_accessor titles = true ->
  length filenames = length titles ->
  Forall (fun ref => Re.has_special ref = false) flat_refs ->
  exists lines,
    Validate.test_refs filenames titles flat_refs = Some lines
    /\ announced_matches lines = length (records_of filenames titles flat_refs)
    /\ announced_misses lines = length (unmatched_refs titles flat_refs).
Proof.
  intros Ha Hlen. induction 1 as [|ref rest Href _ (lines & IH & IHm & IHn)].
  - exists []. repeat split.
  - cbn [Validate.test_refs].
    change (records_of filenames titles (ref :: rest))
      with (map (row_match ref) (key_rows filenames titles ref)
              ++ records_of filenames titles rest)%list.
    unfold unmatched_refs, key_rows, key_matches. cbn [filter].
    fold (unmatched_refs titles rest).
    rewrite (str_contains_plain (target_pattern ref) titles Ha)
      by now rewrite has_special_target.
    match goal with
    | |- context [any ?m] => remember m as mask eqn:Emask
    end.
    assert (Hmask : length mask = length titles)
      by (subst mask; apply length_map).
    clear Emask.
    rewrite IH. destruct (any mask) eqn:Eany; cbn [negb].
    + eexists. split; [reflexivity|]. cbn [announced_matches announced_misses].
      rewrite length_app, length_map, IHm, IHn.
      rewrite (sum_selected mask 0 filenames titles) by congruence.
      split; reflexivity.
    + rewrite (str_contains_plain ref titles Ha Href).
      rewrite (selected_none mask 0 filenames titles Eany).
      match goal with
      | |- context [if any ?m then _ else _] => destruct (any m)
      end;
        (eexists; split; [reflexivity|]; cbn; rewrite IHm, IHn;
         split; reflexivity).
Qed.

Lemma collect_refs_all_kept (raw : list string) :
  Forall (fun ref => Py.strip ref = ref /\ kept ref = true) raw ->
  collect_refs raw = raw.
Proof.
  induction 1 as [|x raw [Hs Hk] _ IH]; cbn [collect_refs]; [reflexivity|].
  fold (kept (Py.strip x)). now rewrite Hs, Hk, IH.
Qed.

(** X29.  When column D holds at most five distinct values, each of them
    trimmed, not empty, not starting with "Flat" and free of special
    characters, [test_matching_logic] tests the very keys the processor
    extracts, and its transcript announces as many matches as the matcher
    then counts in [matched] and as many keys without match as it counts in
    [not_found]. *)
Theorem test_matching_logic_predicts_counters (df_acc : DataFrame)
    (col : list cell) (entries : list (cell * cell)) :
  iloc_col df_acc 3 = Some col ->
  length (unique (dropna col)) <= 5 ->
  Forall (fun ref => Py.strip ref = ref /\ ref <> ""
                     /\ Py.startswith "Flat" ref = false
                     /\ Re.has_special ref = false)
    (unique (dropna col)) ->
  str_accessor (map snd entries) = true ->
  get_flat_references df_acc = unique (dropna col)
  /\ exists lines,
       Validate.test_matching_logic (Some (df_acc, catalog entries))
       = Some (Validate.Testing (unique (dropna col)) :: lines)
       /\ let p :=
            fst (find_matching_sections (catalog entries)
                   (get_flat_references df_acc) init) in
          announced_matches lines = matched (stats p)
          /\ announced_misses lines = not_found (stats p).
Proof.
  intros Hcol Hfive Hraw Ha.
  assert (Hkeys : get_flat_references df_acc = unique (dropna col)).
  { unfold get_flat_references. rewrite Hcol. apply collect_refs_all_kept.
    eapply Forall_impl; [|exact Hraw]. intros ref (Hs & Hne & Hf & _).
    split; [exact Hs|]. unfold kept. rewrite Hf.
    apply String.eqb_neq in Hne. rewrite Hne. cbn.
    destruct (String.eqb_spec ref "Flat / House Ref") as [->|]; [|reflexivity].
    discriminate Hf. }
  split; [exact Hkeys|]. rewrite Hkeys.
  assert (Hplain : Forall (fun ref => Re.has_special ref = false)
                     (unique (dropna col))).
  { eapply Forall_impl; [|exact Hraw]. now intros ref (_ & _ & _ & H). }
  destruct (test_refs_plain (map fst entries) (map snd entries)
              (unique (dropna col)) Ha) as (lines & Ht & Hm & Hn);
    [now rewrite !length_map | exact Hplain |].
  exists lines. split.
  - unfold Validate.test_matching_logic.
    assert (H3 : (3 <? ncols df_acc) = true).
    { unfold iloc_col in Hcol. destruct (3 <? ncols df_acc); congruence. }
    rewrite H3, Hcol. destruct (catalog_columns entries) as [E1 E0].
    rewrite E1, E0. cbn [catalog ncols Nat.ltb Nat.leb].
    rewrite firstn_all2 by exact Hfive. now rewrite Ht.
  - destruct (matching_completes entries (unique (dropna col)) Ha)
      as (p & matches & Hbody).
    { eapply Forall_impl; [|exact Hplain]. intros ref. apply plain_key_compiles. }
    unfold find_matching_sections. rewrite Hbody. cbn [fst].
    apply find_matching_sections_body_state in Hbody as [-> ->]. cbn.
    split; assumption.
Qed.

Lemma test_matching_logic_predicts_counters_witness :
  let col := [Some "HT A 1B2P"; None; Some "HT B 2B3P"; Some "HT A 1B2P"] in
  let entries := [(Some "F1.pdf", Some "Sections - HT A 1B2P - Block 3");
                  (Some "F7.pdf", Some "sections - ht a 1b2p - roof");
                  (Some "F9.pdf", Some "Elevations - HT B 2B3P")] in
  get_flat_references (schedule col) = ["HT A 1B2P"; "HT B 2B3P"]
  /\ exists lines,
       Validate.test_matching_logic (Some (schedule col, catalog entries))
       = Some (Validate.Testing ["HT A 1B2P"; "HT B 2B3P"] :: lines)
       /\ let p :=
            fst (find_matching_sections (catalog entries)
                   (get_flat_references (schedule col)) init) in
          announced_matches lines = matched (stats p)
          /\ announced_misses lines = not_found (stats p).
Proof.
  intros col entries.
  apply (test_matching_logic_predicts_counters (schedule col) col entries).
  - reflexivity.
  - vm_compute. lia.
  - vm_compute. repeat constructor; discriminate.
  - reflexivity.
Defined.

Lemma unused_sheet_agrees_with_section_sheet_witness :
  let sched := schedule [Some "HT A 1B2P"; Some "HT B 2B3P"] in
  let entries := [(Some "F1", Some "Sections - HT A 1B2P - Block 3");
                  (Some "F5.pdf", Some "Sections - HT C 4B6P");
                  (Some "F9.pdf", Some "Elevations - HT B 2B3P")] in
  let w := mkWorld (mkSimpleFS [] false) [] in
  exists run,
    process_files SimpleFS simple_join simple_exists simple_mkdir simple_copy2
      (Some (sched, catalog entries)) w = Some run
    /\ map (fun r => (Report.un_filename r, Report.un_title r))
         (Report.unused_section_files_sheet (detailed_results (final SimpleFS run)))
       = map (fun r => (Report.sc_filename r, Report.sc_title r))
           (filter (fun r => String.eqb (Report.sc_status r) "UNUSED")
              (Report.all_section_files_sheet
                 (detailed_results (final SimpleFS run)))).
Proof.
  intros sched entries w.
  destruct (process_files SimpleFS simple_join simple_exists simple_mkdir
              simple_copy2 (Some (sched, catalog entries)) w) as [run|] eqn:E;
    [|vm_compute in E; discriminate].
  exists run. split; [reflexivity|].
  apply (unused_sheet_agrees_with_section_sheet SimpleFS simple_join simple_exists
           simple_mkdir simple_copy2 sched entries w run E).
  vm_compute in E. injection E as <-. discriminate.
Defined.

Lemma success_rows_name_the_key_folder_witness :
  let sched := schedule [Some "HT A 1B2P"; Some "HT B 2B3P"] in
  let entries := [(Some "F1", Some "Sections - HT A 1B2P - Block 3");
                  (Some "F9.pdf", Some "Elevations - HT B 2B3P")] in
  let w := mkWorld
             (mkSimpleFS
                ["C:\Users\IS19\Documents\as_built_extraction\architect\F1.pdf"]
                false) [] in
  exists run,
    process_files SimpleFS simple_join simple_exists simple_mkdir simple_copy2
      (Some (sched, catalog entries)) w = Some run
    /\ Forall (fun row =>
                 Report.sr_status row = "SUCCESS" ->
                 Report.sr_output_folder row
                 = simple_join (processed_path simple_join) (Report.sr_flat_ref row))
         (Report.summary_by_flat_ref_sheet (detailed_results (final SimpleFS run))).
Proof.
  intros sched entries w.
  destruct (process_files SimpleFS simple_join simple_exists simple_mkdir
              simple_copy2 (Some (sched, catalog entries)) w) as [run|] eqn:E;
    [|vm_compute in E; discriminate].
  exists run. split; [reflexivity|].
  apply (success_rows_name_the_key_folder SimpleFS simple_join simple_exists
           simple_mkdir simple_copy2 sched entries w run E).
  vm_compute in E. injection E as <-. discriminate.
Defined.


